(** * GibRAM Python SDK: the example capability plug-ins and the engine contract

    The development follows [sdk/python/examples/custom_implementation.py]
    (the regex extractor and the hash-derived embedder) down to the library
    calls it makes ([re.findall], [str.encode], [hashlib.sha256],
    [struct.unpack]), and the session operations exercised by
    [sdk/python/test_integration.py]. *)

From Stdlib Require Import String Ascii.
From Stdlib Require Import ZArith NArith List Bool Lia ZifyBool.
From Stdlib Require Import SpecFloat Reals Lra.
From stdpp Require Import base option list gmap sorting.
Import ListNotations.
Open Scope Z_scope.

(** ** Python values *)

Module Py.

(** A [str] is a sequence of Unicode code points. *)
Definition char := N.
Definition str := list char.

(** A string literal of the source text (ASCII only). *)
Definition lit (s : string) : str := map N_of_ascii (list_ascii_of_string s).

(** [bytes]: each element is in [0, 256). *)
Definition bytes := list Z.

(** A Python [float] is given by its IEEE 754 value. *)
Definition float := spec_float.
Definition float_0_0 : float := S754_zero false.
Definition float_0_5 : float := S754_finite false 1 (-1).

(** The values an attribute of an instance may hold, as far as this
    development tells them apart. *)
Inductive value :=
| VNone
| VBool (b : bool)
| VInt (n : Z)
| VStr (s : str).

Inductive exn :=
| UnicodeEncodeError
| IndexError
| StructError.

Inductive result (A : Type) :=
| Ok (a : A)
| Raise (e : exn).
Arguments Ok {A} a.
Arguments Raise {A} e.

Definition bind {A B} (r : result A) (f : A -> result B) : result B :=
  match r with
  | Ok a => f a
  | Raise e => Raise e
  end.

#[global] Instance result_ret : MRet result := fun A a => Ok a.
#[global] Instance result_bind : MBind result := fun A B f r => bind r f.

(** [s[i]] for a list and a non-negative literal index. *)
Definition getitem {A} (l : list A) (i : nat) : result A :=
  match nth_error l i with
  | Some x => Ok x
  | None => Raise IndexError
  end.

(** [l[:stop]], where a negative [stop] counts from the end. *)
Definition slice_to {A} (stop : Z) (l : list A) : list A :=
  if stop <? 0 then firstn (Z.to_nat (Z.of_nat (length l) + stop)) l
  else firstn (Z.to_nat stop) l.

(** [l[start:start+n]] for [0 <= start]. *)
Definition slice {A} (start : Z) (n : nat) (l : list A) : list A :=
  firstn n (skipn (Z.to_nat start) l).

(** [b.ljust(width, fill)]. *)
Definition ljust (width : nat) (fill : Z) (b : bytes) : bytes :=
  b ++ repeat fill (width - length b).

(** [range(0, stop, step)] for a positive step. *)
Definition range_step (stop step : Z) : list Z :=
  map (fun k => step * Z.of_nat k) (seq 0 (Z.to_nat ((stop + step - 1) / step))).

(** [str.encode()]: UTF-8; a surrogate code point cannot be encoded. *)
Definition encode_char (c : char) : option bytes :=
  let z := Z.of_N c in
  let cont (k : Z) := 128 + Z.land (Z.shiftr z (6 * k)) 63 in
  if z <? 128 then Some [z]
  else if z <? 2048 then Some [192 + Z.shiftr z 6; cont 0]
  else if (55296 <=? z) && (z <=? 57343) then None
  else if z <? 65536 then Some [224 + Z.shiftr z 12; cont 1; cont 0]
  else if z <=? 1114111 then Some [240 + Z.shiftr z 18; cont 2; cont 1; cont 0]
  else None.

Fixpoint encode_opt (s : str) : option bytes :=
  match s with
  | [] => Some []
  | c :: s' =>
      match encode_char c, encode_opt s' with
      | Some b, Some bs => Some (b ++ bs)
      | _, _ => None
      end
  end.

Definition encode (s : str) : result bytes :=
  match encode_opt s with
  | Some b => Ok b
  | None => Raise UnicodeEncodeError
  end.

(** [sub in s] on strings. *)
Fixpoint startswith (s p : str) : bool :=
  match p, s with
  | [], _ => true
  | _ :: _, [] => false
  | x :: p', y :: s' => N.eqb x y && startswith s' p'
  end.

Fixpoint contains (s sub : str) : bool :=
  startswith s sub ||
  match s with
  | [] => false
  | _ :: s' => contains s' sub
  end.

(** [g] occurs in [s] as a contiguous stretch. *)
Definition substring (g s : str) : Prop := exists a b, s = a ++ g ++ b.

(** The code points [encode] accepts: up to U+10FFFF, surrogates excepted. *)
Definition encodable_char (c : char) : bool :=
  ((c <? 55296) || (57343 <? c) && (c <=? 1114111))%N.
Definition encodable (s : str) : bool := forallb encodable_char s.

Definition ascii_isalnum (c : char) : bool :=
  ((48 <=? c) && (c <=? 57) || (65 <=? c) && (c <=? 90)
   || (97 <=? c) && (c <=? 122))%N.

(** What the interpreter process fixes behind the program's back: the Unicode
    character database consulted by [re] for word characters, and the order
    in which a [set] of strings built from a sequence is iterated (a function
    of the insertion sequence and of the per-process string hash seed). *)
Class Runtime := {
  isalnum : char -> bool;
  isalnum_ascii : forall c, (c < 128)%N -> isalnum c = ascii_isalnum c;
  set_iter : list str -> list str;
  set_iter_NoDup : forall l, NoDup (set_iter l);
  set_iter_In : forall l x, x ∈ set_iter l <-> x ∈ l
}.

(** One such runtime, for running the definitions: word characters as in
    ASCII, and sets iterated in the order of the last occurrences. *)
Definition ascii_runtime : Runtime := {|
  isalnum := ascii_isalnum;
  isalnum_ascii := fun _ _ => eq_refl;
  set_iter := remove_dups;
  set_iter_NoDup := NoDup_remove_dups;
  set_iter_In := fun l x => elem_of_remove_dups l x
|}.

End Py.

(** ** hashlib.sha256 (FIPS 180-4) *)

Module Hashlib.

Definition w32 (x : Z) : Z := x mod 2 ^ 32.
Definition add32 (x y : Z) : Z := w32 (x + y).
Definition rotr (n x : Z) : Z := Z.lor (Z.shiftr x n) (w32 (Z.shiftl x (32 - n))).
Definition not32 (x : Z) : Z := w32 (Z.lnot x).

Definition Ch (x y z : Z) : Z := Z.lxor (Z.land x y) (Z.land (not32 x) z).
Definition Maj (x y z : Z) : Z :=
  Z.lxor (Z.lxor (Z.land x y) (Z.land x z)) (Z.land y z).
Definition Sigma0 (x : Z) : Z := Z.lxor (Z.lxor (rotr 2 x) (rotr 13 x)) (rotr 22 x).
Definition Sigma1 (x : Z) : Z := Z.lxor (Z.lxor (rotr 6 x) (rotr 11 x)) (rotr 25 x).
Definition sigma0 (x : Z) : Z := Z.lxor (Z.lxor (rotr 7 x) (rotr 18 x)) (Z.shiftr x 3).
Definition sigma1 (x : Z) : Z := Z.lxor (Z.lxor (rotr 17 x) (rotr 19 x)) (Z.shiftr x 10).

(** The round constants and the initial state are the first 32 fractional
    bits of the cube roots and square roots of the first primes. *)
Definition is_prime (n : Z) : bool :=
  (1 <? n) && forallb (fun d => negb (n mod d =? 0))
                      (map Z.of_nat (seq 2 (Z.to_nat n - 2))).
Definition primes64 : list Z :=
  Eval vm_compute in List.filter is_prime (map Z.of_nat (seq 2 310)).

Fixpoint icbrt_bits (b : nat) (n r : Z) : Z :=
  let try_bit k := let r' := r + 2 ^ Z.of_nat k in
                   if r' * r' * r' <=? n then r' else r in
  match b with
  | O => try_bit O
  | S b' => icbrt_bits b' n (try_bit b)
  end.
Definition icbrt (n : Z) : Z := icbrt_bits 40 n 0.

Definition K : list Z :=
  Eval vm_compute in map (fun p => w32 (icbrt (p * 2 ^ 96))) primes64.
Definition H0 : list Z :=
  Eval vm_compute in map (fun p => w32 (Z.sqrt (p * 2 ^ 64))) (firstn 8 primes64).

Definition pad (msg : Py.bytes) : Py.bytes :=
  let l := Z.of_nat (length msg) in
  msg ++ [128] ++ repeat 0 (Z.to_nat ((55 - l) mod 64))
      ++ map (fun i => (8 * l / 2 ^ (8 * (7 - Z.of_nat i))) mod 256) (seq 0 8).

Fixpoint blocks (n : nat) (bs : Py.bytes) : list Py.bytes :=
  match n with
  | O => []
  | S n' => firstn 64 bs :: blocks n' (skipn 64 bs)
  end.

Definition be32 (bs : Py.bytes) : Z :=
  fold_left (fun acc b => acc * 256 + b) bs 0.

Fixpoint words (n : nat) (bs : Py.bytes) : list Z :=
  match n with
  | O => []
  | S n' => be32 (firstn 4 bs) :: words n' (skipn 4 bs)
  end.

(** [rev_w] holds the schedule so far, latest word first. *)
Fixpoint schedule (n : nat) (rev_w : list Z) : list Z :=
  match n with
  | O => rev rev_w
  | S n' =>
      let w := add32 (add32 (sigma1 (nth 1 rev_w 0)) (nth 6 rev_w 0))
                     (add32 (sigma0 (nth 14 rev_w 0)) (nth 15 rev_w 0)) in
      schedule n' (w :: rev_w)
  end.

Record regs := mkRegs
  { ra : Z; rb : Z; rc : Z; rd : Z; re : Z; rf : Z; rg : Z; rh : Z }.

Definition round (s : regs) (kw : Z * Z) : regs :=
  let '(k, w) := kw in
  let t1 := add32 (add32 (add32 (rh s) (Sigma1 (re s)))
                         (add32 (Ch (re s) (rf s) (rg s)) k)) w in
  let t2 := add32 (Sigma0 (ra s)) (Maj (ra s) (rb s) (rc s)) in
  mkRegs (add32 t1 t2) (ra s) (rb s) (rc s) (add32 (rd s) t1) (re s) (rf s) (rg s).

Definition regs_of (h : list Z) : regs :=
  mkRegs (nth 0 h 0) (nth 1 h 0) (nth 2 h 0) (nth 3 h 0)
         (nth 4 h 0) (nth 5 h 0) (nth 6 h 0) (nth 7 h 0).
Definition regs_list (s : regs) : list Z :=
  [ra s; rb s; rc s; rd s; re s; rf s; rg s; rh s].

Definition compress (h : list Z) (block : Py.bytes) : list Z :=
  let w := schedule 48 (rev (words 16 block)) in
  let s := fold_left round (combine K w) (regs_of h) in
  map (fun p => add32 (fst p) (snd p)) (combine h (regs_list s)).

Definition word_bytes (w : Z) : Py.bytes :=
  [w / 2 ^ 24 mod 256; w / 2 ^ 16 mod 256; w / 2 ^ 8 mod 256; w mod 256].

(** [hashlib.sha256(msg).digest()] *)
Definition sha256_digest (msg : Py.bytes) : Py.bytes :=
  let p := pad msg in
  flat_map word_bytes (fold_left compress (blocks (length p / 64) p) H0).

End Hashlib.

(** ** struct.unpack("f", ...) *)

Module Struct.

(** The value of a binary32 bit pattern. *)
Definition binary32 (bits : Z) : Py.float :=
  let s := Z.testbit bits 31 in
  let e := Z.land (Z.shiftr bits 23) 255 in
  let m := Z.land bits 8388607 in
  if e =? 255 then (if m =? 0 then S754_infinity s else S754_nan)
  else if e =? 0 then
         match m with
         | Zpos p => S754_finite s p (-149)
         | _ => S754_zero s
         end
  else match m + 8388608 with
       | Zpos p => S754_finite s p (e - 150)
       | _ => S754_zero s
       end.

(** Format ["f"] in native mode: four bytes, in the byte order of the host,
    which is little-endian on the platforms the SDK runs on. *)
Definition unpack_f (chunk : Py.bytes) : Py.result Py.float :=
  match chunk with
  | [b0; b1; b2; b3] =>
      Py.Ok (binary32 (b0 + 256 * b1 + 65536 * b2 + 16777216 * b3))
  | _ => Py.Raise Py.StructError
  end.

End Struct.

(** ** re.findall for patterns with one capturing group *)

Module Re.

Inductive charset :=
| Range (lo hi : Py.char)        (* [lo-hi] *)
| Single (c : Py.char).          (* a literal character *)

Inductive regex :=
| Chr (c : charset)
| Seq (r1 r2 : regex)
| Alt (r1 r2 : regex)            (* r1|r2, r1 tried first *)
| Plus (c : charset)             (* c+, greedy *)
| Rep (n : nat) (c : charset)    (* c{n} *)
| WordB                          (* \b *)
| Group (r : regex).             (* ( r ), group 1 *)

Definition in_charset (c : charset) (x : Py.char) : bool :=
  match c with
  | Range lo hi => (lo <=? x)%N && (x <=? hi)%N
  | Single y => (x =? y)%N
  end.

(** What the matcher carries besides the remaining input: the character
    just before the current position (for [\b]) and the text captured by
    group 1. *)
Record ctx := mkCtx { prev : option Py.char; group1 : option Py.str }.

Section Matcher.
Context {rt : Py.Runtime}.

(** [\w]: alphanumeric in the Unicode database, or the underscore. *)
Definition is_word (o : option Py.char) : bool :=
  match o with
  | Some c => Py.isalnum c || (c =? 95)%N
  | None => false
  end.

Definition at_boundary (c : ctx) (rest : Py.str) : bool :=
  xorb (is_word (prev c)) (is_word (head rest)).

Definition cont := ctx -> Py.str -> option (ctx * Py.str).

Definition step (x : Py.char) (c : ctx) : ctx := mkCtx (Some x) (group1 c).

(** Greedy [c+]: take as many characters as possible, giving them back one
    at a time while the rest of the pattern fails. *)
Fixpoint m_plus (cs : charset) (c : ctx) (rest : Py.str) (k : cont)
  : option (ctx * Py.str) :=
  match rest with
  | x :: rest' =>
      if in_charset cs x then
        match m_plus cs (step x c) rest' k with
        | Some r => Some r
        | None => k (step x c) rest'
        end
      else None
  | [] => None
  end.

Fixpoint m_rep (n : nat) (cs : charset) (c : ctx) (rest : Py.str) (k : cont)
  : option (ctx * Py.str) :=
  match n with
  | O => k c rest
  | S n' =>
      match rest with
      | x :: rest' =>
          if in_charset cs x then m_rep n' cs (step x c) rest' k else None
      | [] => None
      end
  end.

(** Backtracking match of [r] at the current position, then [k]. *)
Fixpoint m (r : regex) (c : ctx) (rest : Py.str) (k : cont)
  : option (ctx * Py.str) :=
  match r with
  | Chr cs =>
      match rest with
      | x :: rest' => if in_charset cs x then k (step x c) rest' else None
      | [] => None
      end
  | Seq r1 r2 => m r1 c rest (fun c' rest' => m r2 c' rest' k)
  | Alt r1 r2 =>
      match m r1 c rest k with
      | Some res => Some res
      | None => m r2 c rest k
      end
  | Plus cs => m_plus cs c rest k
  | Rep n cs => m_rep n cs c rest k
  | WordB => if at_boundary c rest then k c rest else None
  | Group r' =>
      m r' c rest
        (fun c' rest' =>
           k (mkCtx (prev c')
                    (Some (firstn (length rest - length rest') rest))) rest')
  end.

(** A match starting exactly here: the text of group 1 and the number of
    characters the whole match consumed. *)
Definition match_here (r : regex) (before : option Py.char) (s : Py.str)
  : option (Py.str * nat) :=
  match m r (mkCtx before None) s (fun c rest => Some (c, rest)) with
  | Some (c, rest) =>
      Some (match group1 c with Some g => g | None => [] end,
            (length s - length rest)%nat)
  | None => None
  end.

(** Left-to-right scan for non-overlapping matches; [skip] counts the
    characters of the last match still to be passed over. *)
Fixpoint scan (r : regex) (before : option Py.char) (skip : nat) (s : Py.str)
  : list Py.str :=
  match s with
  | [] =>
      match match_here r before [] with
      | Some (g, _) => [g]
      | None => []
      end
  | x :: s' =>
      match skip with
      | S n => scan r (Some x) n s'
      | O =>
          match match_here r before s with
          | Some (g, len) => g :: scan r (Some x) (len - 1) s'
          | None => scan r (Some x) 0 s'
          end
      end
  end.

(** [re.findall(pattern, text)] *)
Definition findall (r : regex) (text : Py.str) : list Py.str :=
  scan r None 0 text.

End Matcher.

(** Where a successful match may leave the matcher, started at [(c, rest)]:
    further along the same input, with group 1 either untouched or set to a
    stretch of that input. *)
Definition reaches (c : ctx) (rest : Py.str) (c' : ctx) (rest' : Py.str)
  : Prop :=
  rest' `suffix_of` rest
  /\ (group1 c' = group1 c
      \/ exists g, group1 c' = Some g /\ Py.substring g rest).

Definition upper : charset := Range 65%N 90%N.     (* [A-Z] *)
Definition lower : charset := Range 97%N 122%N.    (* [a-z] *)
Definition digit : charset := Range 48%N 57%N.     (* [0-9] *)

End Re.

(** ** examples/custom_implementation.py *)

Module CustomImplementation.

(** [gibram.types.ExtractedEntity] and [ExtractedRelationship], with the
    fields the example passes to their constructors. *)
Record ExtractedEntity := mkExtractedEntity {
  title : Py.str;
  type : Py.str;
  description : Py.str
}.

Record ExtractedRelationship := mkExtractedRelationship {
  source_title : Py.str;
  target_title : Py.str;
  relationship_type : Py.str;
  rel_description : Py.str;
  weight : Py.float
}.

(** A method body: it receives the instance, and returns its result (or
    the exception it raised) with the instance as the call left it. *)
Definition method (Self A : Type) := Self -> Py.result A * Self.

Definition lift {Self A} (r : Py.result A) : method Self A := fun self => (r, self).
Definition attr {Self A} (get : Self -> A) : method Self A :=
  fun self => (Py.Ok (get self), self).

#[global] Instance method_ret {Self} : MRet (method Self) :=
  fun A a self => (Py.Ok a, self).
#[global] Instance method_bind {Self} : MBind (method Self) :=
  fun A B f c self =>
    match c self with
    | (Py.Ok a, self') => f a self'
    | (Py.Raise e, self') => (Py.Raise e, self')
    end.

(** *** SimpleRegexExtractor *)

(** The class defines no attribute and no [__init__] of its own; an
    instance carries the attribute dictionary of every Python object, with
    whatever its base class or a caller has put there. *)
Record SimpleRegexExtractor := mkSimpleRegexExtractor {
  extractor_dict : gmap Py.str Py.value        (* self.__dict__ *)
}.

(** [SimpleRegexExtractor()] *)
Definition SimpleRegexExtractor_init : SimpleRegexExtractor :=
  mkSimpleRegexExtractor ∅.

(** [r"\b([A-Z][a-z]+ [A-Z][a-z]+)\b"] *)
Definition person_pattern : Re.regex :=
  Re.Seq Re.WordB
    (Re.Seq
       (Re.Group
          (Re.Seq (Re.Chr Re.upper)
             (Re.Seq (Re.Plus Re.lower)
                (Re.Seq (Re.Chr (Re.Single 32%N))
                   (Re.Seq (Re.Chr Re.upper) (Re.Plus Re.lower))))))
       Re.WordB).

(** [r"\b(1[0-9]{3}|20[0-9]{2})\b"] *)
Definition year_pattern : Re.regex :=
  Re.Seq Re.WordB
    (Re.Seq
       (Re.Group
          (Re.Alt
             (Re.Seq (Re.Chr (Re.Single 49%N)) (Re.Rep 3 Re.digit))
             (Re.Seq (Re.Chr (Re.Single 50%N))
                (Re.Seq (Re.Chr (Re.Single 48%N)) (Re.Rep 2 Re.digit)))))
       Re.WordB).

Definition person_entity (person : Py.str) : ExtractedEntity :=
  mkExtractedEntity person (Py.lit "Person")
                    (Py.lit "Person mentioned: " ++ person).

Definition year_entity (year : Py.str) : ExtractedEntity :=
  mkExtractedEntity year (Py.lit "Year") (Py.lit "Year mentioned: " ++ year).

Definition mentioned_in (person year : Py.str) : ExtractedRelationship :=
  mkExtractedRelationship person year (Py.lit "MENTIONED_IN")
    (person ++ Py.lit " mentioned in context of " ++ year) Py.float_0_5.

Section Extractor.
Context {rt : Py.Runtime}.

(** The body of [extract]; each [fold_left] is one of its [for] loops, the
    accumulator being the list the loop appends to. *)
Definition extract_body (text : Py.str)
  : list ExtractedEntity * list ExtractedRelationship :=
  let entities := [] in
  let relationships := [] in
  let persons := Py.set_iter (Re.findall person_pattern text) in
  let entities :=
    fold_left (fun entities person => entities ++ [person_entity person])
              persons entities in
  let years := Py.set_iter (Re.findall year_pattern text) in
  let entities :=
    fold_left (fun entities year => entities ++ [year_entity year])
              years entities in
  let relationships :=
    fold_left
      (fun relationships person =>
         fold_left
           (fun relationships year =>
              if Py.contains text person && Py.contains text year
              then relationships ++ [mentioned_in person year]
              else relationships)
           years relationships)
      persons relationships in
  (entities, relationships).

Definition extract (text : Py.str)
  : method SimpleRegexExtractor
           (list ExtractedEntity * list ExtractedRelationship) :=
  mret (extract_body text).

(** The two sets [extract] builds, as it iterates them. *)
Definition persons_of (text : Py.str) : list Py.str :=
  Py.set_iter (Re.findall person_pattern text).
Definition years_of (text : Py.str) : list Py.str :=
  Py.set_iter (Re.findall year_pattern text).

(** The instance as a series of earlier [extract] calls leaves it. *)
Definition after_calls (history : list Py.str) (self : SimpleRegexExtractor)
  : SimpleRegexExtractor :=
  fold_left (fun self text => snd (extract text self)) history self.

End Extractor.

(** *** DummyEmbedder *)

Record DummyEmbedder := mkDummyEmbedder { dimensions : Z }.

(** [__init__(self, dimensions=1536)] *)
Definition DummyEmbedder_init (dimensions : option Z) : DummyEmbedder :=
  mkDummyEmbedder (default 1536 dimensions).

(** The [for i in range(0, min(len(hash_bytes), self.dimensions * 4), 4)]
    loop, [vec] being the list it appends to. *)
Definition hash_floats (dimensions : Z) (hash_bytes : Py.bytes)
  : Py.result (list Py.float) :=
  fold_left
    (fun (acc : Py.result (list Py.float)) i =>
       vec ← acc;
       let chunk := Py.ljust 4 0 (Py.slice i 4 hash_bytes) in
       value ← Struct.unpack_f chunk;
       mret (vec ++ [value]))
    (Py.range_step (Z.min (Z.of_nat (length hash_bytes)) (dimensions * 4)) 4)
    (Py.Ok []).

(** The [while len(vec) < self.dimensions: vec.append(0.0)] loop, run for at
    most [n] iterations. *)
Fixpoint pad_loop (n : nat) (dimensions : Z) (vec : list Py.float)
  : list Py.float :=
  match n with
  | O => vec
  | S n' =>
      if Z.of_nat (length vec) <? dimensions
      then pad_loop n' dimensions (vec ++ [Py.float_0_0])
      else vec
  end.

(** The body of the [for text in texts] loop, up to the vector appended to
    [embeddings]. *)
Definition embed_text (dimensions : Z) (text : Py.str)
  : Py.result (list Py.float) :=
  encoded ← Py.encode text;
  let hash_bytes := Hashlib.sha256_digest encoded in
  vec ← hash_floats dimensions hash_bytes;
  let vec := pad_loop (Z.to_nat dimensions) dimensions vec in
  mret (Py.slice_to dimensions vec).

Fixpoint embed_loop (texts : list Py.str) (embeddings : list (list Py.float))
  : method DummyEmbedder (list (list Py.float)) :=
  match texts with
  | [] => mret embeddings
  | text :: texts' =>
      dims ← attr dimensions;
      vec ← lift (embed_text dims text);
      embed_loop texts' (embeddings ++ [vec])
  end.

Definition embed (texts : list Py.str)
  : method DummyEmbedder (list (list Py.float)) :=
  embed_loop texts [].

Definition embed_single (text : Py.str)
  : method DummyEmbedder (list Py.float) :=
  embeddings ← embed [text];
  lift (Py.getitem embeddings 0).

(** The contract of [embed] on a batch: it returns one vector per text, the
    i-th being the vector of the i-th text, each as long as [dimensions]. *)
Definition one_vector_per_text (self : DummyEmbedder) (texts : list Py.str)
  : Prop :=
  exists vs,
    fst (embed texts self) = Py.Ok vs
    /\ length vs = length texts
    /\ (forall i t, texts !! i = Some t ->
                    exists v, vs !! i = Some v
                              /\ fst (embed [t] self) = Py.Ok [v])
    /\ Forall (fun v => Z.of_nat (length v) = dimensions self) vs.

End CustomImplementation.

(** ** The engine behind the session operations

    [gibram.GibRAMIndexer] itself is not among the sources at hand: the
    examples and [test_integration.py] only call it.  Its operations are
    written here after the design document of the engine. *)

Module Engine.

Module CI := CustomImplementation.

Inductive error :=
| ConfigurationError
| ConnectionError
| ExtractionError
| EmbeddingError
| IndexingError
| QueryError.

Inductive outcome (A : Type) :=
| Done (a : A)
| Failed (e : error).
Arguments Done {A} a.
Arguments Failed {A} e.

(** Modelled from the spec: the Embedder capability of section 4.2, which
    turns a batch of texts into numeric vectors and may fail. *)
Definition vector := list R.
Definition Embedder := list Py.str -> option (list vector).

(** Modelled from the spec: the Extractor capability of section 4.2;
    [None] is an ExtractionError. *)
Definition Extractor :=
  Py.str -> option (list CI.ExtractedEntity * list CI.ExtractedRelationship).

(** Modelled from the spec: the configuration surface of section 6 (the
    constructor of [GibRAMIndexer] is missing).  An absent plug-in selects
    the default capability, which needs a credential. *)
Record Config := mkConfig {
  session_id : Py.str;
  chunk_size : Z;
  chunk_overlap : Z;
  auto_detect_communities : bool;
  extractor : option Extractor;
  embedder : option Embedder;
  llm_api_key : option Py.str
}.

(** Modelled from the spec: the data model of section 3. *)
Record TextUnit := mkTextUnit {
  tu_id : nat;
  tu_document : nat;
  tu_index : nat;
  tu_content : Py.str;
  tu_embedding : vector
}.

Record Entity := mkEntity {
  ent_id : nat;
  ent_title : Py.str;
  ent_type : Py.str;
  ent_evidence : list Py.str;      (* accumulated description, oldest first *)
  ent_count : nat;                 (* occurrence count *)
  ent_embedding : vector;
  ent_sources : gset nat
}.

Record Relationship := mkRelationship {
  rel_source : nat;
  rel_target : nat;
  rel_type : Py.str;
  rel_evidence : list Py.str;
  rel_weight : R;
  rel_count : nat
}.

Record Community := mkCommunity {
  com_id : nat;
  com_members : gset nat;
  com_summary : Py.str;
  com_embedding : vector
}.

(** The elapsed time of section 6 is left out: it is not a function of the
    inputs. *)
Record IndexStats := mkIndexStats {
  documents_indexed : nat;
  text_units_created : nat;
  entities_extracted : nat;
  relationships_extracted : nat;
  communities_detected : nat;
  rejected_units : nat;
  rejected_relationships : nat
}.

Definition no_stats : IndexStats := mkIndexStats 0 0 0 0 0 0 0.

Definition add_stats (a b : IndexStats) : IndexStats :=
  mkIndexStats (documents_indexed a + documents_indexed b)
               (text_units_created a + text_units_created b)
               (entities_extracted a + entities_extracted b)
               (relationships_extracted a + relationships_extracted b)
               (communities_detected b)
               (rejected_units a + rejected_units b)
               (rejected_relationships a + rejected_relationships b).

Record Session := mkSession {
  sess_chunk_size : Z;
  sess_chunk_overlap : Z;
  sess_auto_detect : bool;
  sess_extractor : Extractor;
  sess_embedder : Embedder;
  text_units : list TextUnit;
  entities : gmap (Py.str * Py.str) Entity;
  relationships : gmap (nat * nat * Py.str) Relationship;
  communities : list Community;
  stats : IndexStats;
  next_document : nat;
  next_entity : nat
}.

(** Modelled from the spec: "normalization lower-cases and trims
    whitespace" (section 4.3).  The lower case of a text and the characters
    that are whitespace are those of the Unicode database the engine runs
    with. *)
Class Normalization := {
  lower : Py.str -> Py.str;
  is_space : Py.char -> bool
}.

Fixpoint lstrip `{Normalization} (s : Py.str) : Py.str :=
  match s with
  | c :: s' => if is_space c then lstrip s' else s
  | [] => []
  end.

Definition normalize `{Normalization} (s : Py.str) : Py.str :=
  lower (rev (lstrip (rev (lstrip s)))).

(** The ASCII part of that database, for running the definitions. *)
Definition lower_char (c : Py.char) : Py.char :=
  if ((65 <=? c) && (c <=? 90))%N then (c + 32)%N else c.

Definition ascii_is_space (c : Py.char) : bool :=
  ((c =? 32) || (9 <=? c) && (c <=? 13))%N.

Definition ascii_normalization : Normalization :=
  {| lower := fmap lower_char; is_space := ascii_is_space |}.

(** Modelled from the spec: the entity identity key
    [(normalize(title), type)] of section 4.3. *)
Definition extracted_key `{Normalization} (x : CI.ExtractedEntity)
  : Py.str * Py.str :=
  (normalize (CI.title x), CI.type x).

Definition entity_key `{Normalization} (e : Entity) : Py.str * Py.str :=
  (normalize (ent_title e), ent_type e).

(** The entities of a session, as a sequence. *)
Definition all_entities (s : Session) : list Entity :=
  (map_to_list (entities s)).*2.

Definition all_relationships (s : Session) : list Relationship :=
  (map_to_list (relationships s)).*2.

(** Modelled from the spec: evidence is "bounded to a maximum retained
    length; truncate oldest evidence first". *)
Definition keep_latest {A} (n : nat) (l : list A) : list A :=
  drop (length l - n) l.

(** The evidence [old] after the pieces [news] were appended to it, under
    the bound. *)
Definition accumulate {A} (bound : nat) (old news : list A) : list A :=
  match news with
  | [] => old
  | _ :: _ => keep_latest bound (old ++ news)
  end.

(** Modelled from the spec: the embedding of a merged entity as the
    incremental mean of the contributing vectors. *)
Definition mean_update (old : vector) (n : nat) (v : vector) : vector :=
  zip_with (fun o x => (o * INR n + x) / INR (S n))%R old v.

(** Modelled from the spec: documents are processed "in batches of the
    given size"; a batch holds at least one document. *)
Fixpoint batches_upto {A} (fuel n : nat) (docs : list A) : list (list A) :=
  match fuel, docs with
  | S fuel', _ :: _ => take n docs :: batches_upto fuel' n (drop n docs)
  | _, _ => []
  end.

Definition batches {A} (batch_size : Z) (docs : list A) : list (list A) :=
  batches_upto (length docs) (Z.to_nat (Z.max 1 batch_size)) docs.

(** Modelled from the spec: cosine similarity (section 4.5).  Division by
    zero yields zero in [R], which is the score of a zero vector. *)
Definition dot (a b : vector) : R :=
  foldr Rplus 0%R (zip_with Rmult a b).

Definition norm (a : vector) : R := sqrt (dot a a).

Definition cosine (a b : vector) : R := (dot a b / (norm a * norm b))%R.

Record Scored (A : Type) := mkScored { item : A; score : R }.
Arguments mkScored {A} item score.
Arguments item {A} _.
Arguments score {A} _.

(** Lexical order of titles. *)
Fixpoint title_le (a b : Py.str) : bool :=
  match a, b with
  | [], _ => true
  | _ :: _, [] => false
  | x :: a', y :: b' => (x <? y)%N || (x =? y)%N && title_le a' b'
  end.

(** Modelled from the spec: entities rank by score, "ties broken by higher
    occurrence count then lexical order of title"; text units by score, ties
    by text-unit id; communities by score. *)
Definition entity_before (a b : Scored Entity) : Prop :=
  (score b < score a)%R
  \/ (score a = score b
      /\ (ent_count (item b) < ent_count (item a)
          \/ (ent_count (item a) = ent_count (item b)
              /\ title_le (ent_title (item a)) (ent_title (item b)) = true)))%nat.

Definition unit_before (a b : Scored TextUnit) : Prop :=
  (score b < score a)%R
  \/ (score a = score b /\ tu_id (item a) <= tu_id (item b))%nat.

Definition community_before (a b : Scored Community) : Prop :=
  (score b <= score a)%R.

#[global] Instance entity_before_dec a b : Decision (entity_before a b).
Proof.
  unfold entity_before.
  destruct (Rlt_dec (score b) (score a)); [left; tauto |].
  destruct (Req_dec_T (score a) (score b)); [| right; tauto].
  destruct (decide (ent_count (item b) < ent_count (item a))%nat);
    [left; tauto |].
  destruct (decide (ent_count (item a) = ent_count (item b)));
    [| right; tauto].
  destruct (title_le (ent_title (item a)) (ent_title (item b))) eqn:E;
    [left; tauto | right; intuition congruence].
Defined.

#[global] Instance unit_before_dec a b : Decision (unit_before a b).
Proof.
  unfold unit_before.
  destruct (Rlt_dec (score b) (score a)); [left; tauto |].
  destruct (Req_dec_T (score a) (score b)); [| right; tauto].
  destruct (decide (tu_id (item a) <= tu_id (item b))%nat);
    [left; tauto | right; tauto].
Defined.

#[global] Instance community_before_dec a b : Decision (community_before a b).
Proof. unfold community_before. apply Rle_dec. Defined.

(** Modelled from the spec: one facet of a query (section 4.5).  A disabled
    facet is empty and evaluates no similarity; an enabled one scores every
    item against the query vector and returns the [top_k] first in rank.
    The second component counts the similarity evaluations made. *)
Definition facet {A} (enabled : bool) (embedding : A -> vector)
           (before : relation (Scored A)) `{forall a b, Decision (before a b)}
           (q : vector) (top_k : nat) (items : list A)
  : list (Scored A) * nat :=
  if enabled then
    (take top_k
          (merge_sort before
             ((fun x => mkScored x (cosine q (embedding x))) <$> items)),
     length items)
  else ([], 0%nat).

(** The execution time of section 4.5 is left out; the three counters record
    how many similarity scores each facet computed. *)
Record QueryResult := mkQueryResult {
  qr_entities : list (Scored Entity);
  qr_text_units : list (Scored TextUnit);
  qr_communities : list (Scored Community);
  scored_entities : nat;
  scored_text_units : nat;
  scored_communities : nat
}.

Definition empty_result : QueryResult := mkQueryResult [] [] [] 0 0 0.

(** Modelled from the spec: [query] of sections 4.5, 6 and 7.  A negative
    [top_k] is a QueryError; with every facet disabled, or nothing indexed,
    the result is empty without any work; otherwise the query is embedded
    once and each facet is resolved. *)
Definition query (s : Session) (text : Py.str) (top_k : Z)
           (include_entities include_text_units include_communities : bool)
  : outcome QueryResult :=
  if top_k <? 0 then Failed QueryError
  else if negb (include_entities || include_text_units || include_communities)
  then Done empty_result
  else if bool_decide (text_units s = [] /\ entities s = ∅)
  then Done empty_result
  else
    match sess_embedder s [text] with
    | Some [q] =>
        let k := Z.to_nat top_k in
        let '(es, ne) :=
          facet include_entities ent_embedding entity_before q k
                (all_entities s) in
        let '(us, nu) :=
          facet include_text_units tu_embedding unit_before q k
                (text_units s) in
        let '(cs, nc) :=
          facet include_communities com_embedding community_before q k
                (communities s) in
        Done (mkQueryResult es us cs ne nu nc)
    | _ => Failed EmbeddingError
    end.

(** Every entity is stored under its own key. *)
Definition keyed `{Normalization} (m : gmap (Py.str * Py.str) Entity)
  : Prop :=
  forall k e, m !! k = Some e -> entity_key e = k.

(** The extracted entities of a sequence that fall under a key. *)
Definition under `{Normalization} (k : Py.str * Py.str)
           (ms : list CI.ExtractedEntity) : list CI.ExtractedEntity :=
  filter (fun x => extracted_key x = k) ms.

(** How merging the extracted entities [ms] changes a graph: the keys are
    those already present and those of [ms]; an entity already present keeps
    its identity, counts the extractions under its key, and has their
    descriptions appended to its evidence, the oldest evidence giving way
    at the bound. *)
Definition grows `{Normalization} (bound : nat)
           (ms : list CI.ExtractedEntity)
           (m m' : gmap (Py.str * Py.str) Entity) : Prop :=
  (forall k, is_Some (m' !! k)
             <-> is_Some (m !! k) \/ k ∈ extracted_key <$> ms)
  /\ (forall k e,
         m !! k = Some e ->
         exists e',
           m' !! k = Some e'
           /\ ent_id e' = ent_id e
           /\ ent_title e' = ent_title e
           /\ ent_type e' = ent_type e
           /\ ent_count e' = (ent_count e + length (under k ms))%nat
           /\ ent_evidence e'
              = accumulate bound (ent_evidence e)
                           (CI.description <$> under k ms)).

(** The capabilities and chunking parameters of a session. *)
Definition same_setup (s s' : Session) : Prop :=
  sess_extractor s' = sess_extractor s
  /\ sess_embedder s' = sess_embedder s
  /\ sess_chunk_size s' = sess_chunk_size s
  /\ sess_chunk_overlap s' = sess_chunk_overlap s.

(** A step of indexing that merges the extracted entities [ms]. *)
Definition step_ok `{Normalization} (bound : nat)
           (ms : list CI.ExtractedEntity) (s s' : Session) : Prop :=
  same_setup s s'
  /\ grows bound ms (entities s) (entities s')
  /\ (keyed (entities s) -> keyed (entities s')).

Section Indexing.

(** Modelled from the spec: the parts of the engine the design document
    leaves to the implementation are parameters: the Unicode database of the
    normalization, the Chunker of section 4.1
    (chunk size, overlap, document text), the LLM-backed default
    capabilities obtained from a credential, the Community Detector of
    section 4.4, the bound on retained evidence and the weight ceiling of
    section 4.3, and the numeric value of an extracted weight. *)
Context {ucd : Normalization}.
Variable chunker : Z -> Z -> Py.str -> list Py.str.
Variable default_extractor : Py.str -> Extractor.
Variable default_embedder : Py.str -> Embedder.
Variable detector : list Entity -> list Relationship -> list Community.
Variable max_evidence : nat.
Variable weight_ceiling : R.
Variable weight_value : Py.float -> R.

(** Modelled from the spec: evidence is "bounded to a maximum retained
    length"; the piece just appended is retained under any bound. *)
Definition evidence_bound : nat := Nat.max 1 max_evidence.

(** Modelled from the spec: the credential is the key passed in the
    configuration, else the one of the environment; an empty key is no key. *)
Definition credential (cfg : Config) (env_key : option Py.str)
  : option Py.str :=
  match llm_api_key cfg with
  | Some (c :: k) => Some (c :: k)
  | _ =>
      match env_key with
      | Some (c :: k) => Some (c :: k)
      | _ => None
      end
  end.

Definition uses_default (cfg : Config) : bool :=
  bool_decide (extractor cfg = None) || bool_decide (embedder cfg = None).

(** Modelled from the spec: session construction (sections 6 and 7; the
    constructor of [GibRAMIndexer] is missing).  The configuration is
    validated first; only a valid one yields a session, which starts empty. *)
Definition GibRAMIndexer_init (cfg : Config) (env_key : option Py.str)
  : outcome Session :=
  if bool_decide (session_id cfg = []) then Failed ConfigurationError
  else if chunk_size cfg <=? 0 then Failed ConfigurationError
  else if chunk_size cfg <=? chunk_overlap cfg then Failed ConfigurationError
  else
    match credential cfg env_key with
    | None =>
        match extractor cfg, embedder cfg with
        | Some ex, Some em =>
            Done (mkSession (chunk_size cfg) (chunk_overlap cfg)
                            (auto_detect_communities cfg) ex em
                            [] ∅ ∅ [] no_stats 0 0)
        | _, _ => Failed ConfigurationError
        end
    | Some key =>
        Done (mkSession (chunk_size cfg) (chunk_overlap cfg)
                        (auto_detect_communities cfg)
                        (default (default_extractor key) (extractor cfg))
                        (default (default_embedder key) (embedder cfg))
                        [] ∅ ∅ [] no_stats 0 0)
    end.

(** The graph of a session, replaced as a whole. *)
Definition with_graph (s : Session)
           (ents : gmap (Py.str * Py.str) Entity)
           (rels : gmap (nat * nat * Py.str) Relationship)
           (next : nat) : Session :=
  mkSession (sess_chunk_size s) (sess_chunk_overlap s) (sess_auto_detect s)
            (sess_extractor s) (sess_embedder s) (text_units s)
            ents rels (communities s) (stats s) (next_document s) next.

(** Modelled from the spec: merging one extracted entity (section 4.3).  On
    a key collision the occurrence count is incremented, the description is
    appended as evidence and the embedding updated; otherwise a new Entity
    is created under the key. *)
Definition merge_entity (unit : nat) (s : Session)
           (xv : CI.ExtractedEntity * vector) : Session :=
  let '(x, v) := xv in
  let key := extracted_key x in
  match entities s !! key with
  | Some e =>
      let e' :=
        mkEntity (ent_id e) (ent_title e) (ent_type e)
                 (keep_latest evidence_bound (ent_evidence e ++ [CI.description x]))
                 (S (ent_count e))
                 (mean_update (ent_embedding e) (ent_count e) v)
                 (ent_sources e ∪ {[unit]}) in
      with_graph s (<[key := e']> (entities s)) (relationships s)
                 (next_entity s)
  | None =>
      let e' :=
        mkEntity (next_entity s) (CI.title x) (CI.type x)
                 (keep_latest evidence_bound [CI.description x])
                 1 v {[unit]} in
      with_graph s (<[key := e']> (entities s)) (relationships s)
                 (S (next_entity s))
  end.

(** Modelled from the spec: a title is resolved against the entities of
    the graph, by its normalized form; the lowest id wins. *)
Definition resolve (ents : gmap (Py.str * Py.str) Entity) (title : Py.str)
  : option nat :=
  match ent_id <$> filter (fun e => normalize (ent_title e) = normalize title)
                          (map_to_list ents).*2 with
  | [] => None
  | i :: ids => Some (foldr Nat.min i ids)
  end.

(** Modelled from the spec: merging one extracted relationship (section
    4.3).  Endpoints that do not resolve, and self-loops, are dropped and
    counted; the key is ordered; weights add up to the ceiling.  The boolean
    tells whether the relationship was rejected. *)
Definition merge_relationship (s : Session) (r : CI.ExtractedRelationship)
  : Session * bool :=
  match resolve (entities s) (CI.source_title r),
        resolve (entities s) (CI.target_title r) with
  | Some a, Some b =>
      if (a =? b)%nat then (s, true)
      else
        let key := (Nat.min a b, Nat.max a b, CI.relationship_type r) in
        let w := weight_value (CI.weight r) in
        let r' :=
          match relationships s !! key with
          | Some old =>
              mkRelationship (rel_source old) (rel_target old) (rel_type old)
                (keep_latest evidence_bound
                             (rel_evidence old ++ [CI.rel_description r]))
                (Rmin (rel_weight old + w) weight_ceiling)
                (S (rel_count old))
          | None =>
              mkRelationship (Nat.min a b) (Nat.max a b)
                (CI.relationship_type r)
                (keep_latest evidence_bound [CI.rel_description r])
                (Rmin w weight_ceiling) 1
          end in
        (with_graph s (entities s) (<[key := r']> (relationships s))
                    (next_entity s), false)
  | _, _ => (s, true)
  end.

(** Modelled from the spec: what extraction and embedding yield for one
    text unit (the side-effect-free stage of section 5): the vector of the
    unit, the extracted entities with their vectors, and the extracted
    relationships; [None] when a capability failed for the unit. *)
Definition prepare (s : Session) (content : Py.str)
  : option (vector * list (CI.ExtractedEntity * vector)
            * list CI.ExtractedRelationship) :=
  match sess_extractor s content with
  | Some (ents, rels) =>
      match sess_embedder s (content :: (CI.description <$> ents)) with
      | Some (v :: vs) =>
          if (length vs =? length ents)%nat
          then Some (v, zip ents vs, rels)
          else None
      | _ => None
      end
  | None => None
  end.

Definition add_text_unit (s : Session) (u : TextUnit) : Session :=
  mkSession (sess_chunk_size s) (sess_chunk_overlap s) (sess_auto_detect s)
            (sess_extractor s) (sess_embedder s) (text_units s ++ [u])
            (entities s) (relationships s) (communities s) (stats s)
            (next_document s) (next_entity s).

(** Modelled from the spec: the serialized merge of one text unit into the
    graph, with its counters; a failed unit is isolated and counted
    (section 7). *)
Definition process_unit (doc : nat) (acc : Session * IndexStats)
           (ic : nat * Py.str) : Session * IndexStats :=
  let '(s, st) := acc in
  let '(index, content) := ic in
  match prepare s content with
  | None =>
      (s, add_stats st (mkIndexStats 0 1 0 0 0 1 0))
  | Some (v, ents, rels) =>
      let unit := length (text_units s) in
      let s1 := add_text_unit s (mkTextUnit unit doc index content v) in
      let s2 := foldl (merge_entity unit) s1 ents in
      let '(s3, rejected) :=
        foldl (fun (a : Session * nat) r =>
                 let '(s', bad) := merge_relationship a.1 r in
                 (s', if bad then S a.2 else a.2))
              (s2, 0%nat) rels in
      (s3, add_stats st (mkIndexStats 0 1 (length ents) (length rels) 0 0
                                      rejected))
  end.

Definition next_doc (s : Session) : Session :=
  mkSession (sess_chunk_size s) (sess_chunk_overlap s) (sess_auto_detect s)
            (sess_extractor s) (sess_embedder s) (text_units s)
            (entities s) (relationships s) (communities s) (stats s)
            (S (next_document s)) (next_entity s).

Definition process_document (acc : Session * IndexStats) (document : Py.str)
  : Session * IndexStats :=
  let '(s, st) := acc in
  let chunks := chunker (sess_chunk_size s) (sess_chunk_overlap s) document in
  let '(s', st') :=
    foldl (process_unit (next_document s)) (s, st)
          (zip (seq 0 (length chunks)) chunks) in
  (next_doc s', add_stats st' (mkIndexStats 1 0 0 0 0 0 0)).

Definition process_batch (acc : Session * IndexStats) (batch : list Py.str)
  : Session * IndexStats :=
  foldl process_document acc batch.

(** Modelled from the spec: communities are recomputed wholesale from the
    graph and replace the previous ones (section 4.4). *)
Definition detect_communities (s : Session) : Session :=
  mkSession (sess_chunk_size s) (sess_chunk_overlap s) (sess_auto_detect s)
            (sess_extractor s) (sess_embedder s) (text_units s)
            (entities s) (relationships s)
            (detector (all_entities s) (all_relationships s))
            (stats s) (next_document s) (next_entity s).

Definition with_stats (s : Session) (st : IndexStats) : Session :=
  mkSession (sess_chunk_size s) (sess_chunk_overlap s) (sess_auto_detect s)
            (sess_extractor s) (sess_embedder s) (text_units s)
            (entities s) (relationships s) (communities s) st
            (next_document s) (next_entity s).

(** Modelled from the spec: [index_documents] of section 6 (the method of
    [GibRAMIndexer] is missing).  It returns the counts of this call and the
    session with its accumulated statistics. *)
Definition index_documents (s : Session) (documents : list Py.str)
           (batch_size : Z) : IndexStats * Session :=
  let '(s1, st) := foldl process_batch (s, no_stats) (batches batch_size documents) in
  let s2 := if sess_auto_detect s1 then detect_communities s1 else s1 in
  let st' :=
    mkIndexStats (documents_indexed st) (text_units_created st)
                 (entities_extracted st) (relationships_extracted st)
                 (length (communities s2)) (rejected_units st)
                 (rejected_relationships st) in
  (st', with_stats s2 (add_stats (stats s2) st')).

(** The entities extracted from the accepted text units of a series of
    documents, in the order they are merged. *)
Definition unit_mentions (s : Session) (content : Py.str)
  : list CI.ExtractedEntity :=
  match prepare s content with
  | Some (_, ents, _) => ents.*1
  | None => []
  end.

Definition mentions (s : Session) (documents : list Py.str)
  : list CI.ExtractedEntity :=
  document ← documents;
  content ← chunker (sess_chunk_size s) (sess_chunk_overlap s) document;
  unit_mentions s content.

(** The sessions a client can hold: a constructed one, and any it was
    indexed into. *)
Inductive reachable : Session -> Prop :=
| reachable_init cfg env_key s :
    GibRAMIndexer_init cfg env_key = Done s -> reachable s
| reachable_index s documents batch_size :
    reachable s -> reachable (index_documents s documents batch_size).2.

End Indexing.

End Engine.

(** ** The set-up of the example's [main()]

    [GibRAMIndexer(session_id="custom-demo", extractor=SimpleRegexExtractor(),
    embedder=DummyEmbedder(dimensions=1536))], for running the engine
    operations on the two plug-ins. *)

Module Demo.

Module CI := CustomImplementation.

(** The real number a float stands for; infinities and NaN stand for none
    and are read as 0. *)
Definition float_value (f : Py.float) : R :=
  match f with
  | S754_finite s m e =>
      ((if s then -1 else 1) * IZR (Zpos m) * powerRZ 2 e)%R
  | _ => 0%R
  end.

Definition regex_extractor : Engine.Extractor :=
  fun text =>
    match (CI.extract (rt := Py.ascii_runtime) text
                      CI.SimpleRegexExtractor_init).1 with
    | Py.Ok r => Some r
    | Py.Raise _ => None
    end.

Definition dummy_embedder : Engine.Embedder :=
  fun texts =>
    match (CI.embed texts (CI.DummyEmbedder_init (Some 1536))).1 with
    | Py.Ok vs => Some (map (map float_value) vs)
    | Py.Raise _ => None
    end.

(** One text unit per document. *)
Definition whole_document (size overlap : Z) (text : Py.str) : list Py.str :=
  [text].

(** No LLM-backed capability is at hand, and no community is detected. *)
Definition no_extractor (key : Py.str) : Engine.Extractor := fun _ => None.
Definition no_embedder (key : Py.str) : Engine.Embedder := fun _ => None.
Definition no_detector (es : list Engine.Entity)
           (rs : list Engine.Relationship) : list Engine.Community := [].

Definition config : Engine.Config :=
  Engine.mkConfig (Py.lit "custom-demo") 256 32 false
                  (Some regex_extractor) (Some dummy_embedder) None.

Definition session : Engine.Session :=
  Engine.mkSession 256 32 false regex_extractor dummy_embedder
                   [] ∅ ∅ [] Engine.no_stats 0 0.

Definition documents : list Py.str :=
  [Py.lit "Albert Einstein was born in 1879.";
   Py.lit "Marie Curie won Nobel Prize in 1903.";
   Py.lit "Isaac Newton published Principia in 1687."].

(** A session holding two text units, with an embedder that maps every text
    to the first unit vector. *)
Definition unit_embedder : Engine.Embedder :=
  fun texts => Some ((fun _ => [1; 0]%R) <$> texts).

Definition small_session : Engine.Session :=
  Engine.mkSession 256 32 false regex_extractor unit_embedder
    [Engine.mkTextUnit 0 0 0 (Py.lit "Albert Einstein was born in 1879.")
                       [1; 0]%R;
     Engine.mkTextUnit 1 1 0 (Py.lit "Marie Curie won Nobel Prize in 1903.")
                       [0; 1]%R]
    ∅ ∅ [] Engine.no_stats 2 0.

End Demo.

(** ** The floats of a digest

    What the loop of [embed] over [range(0, min(len(hash_bytes),
    self.dimensions * 4), 4)] unpacks, position by position. *)

Module EmbedderForm.

(** The float unpacked from the four bytes at offset [i]. *)
Definition float_at (hash_bytes : Py.bytes) (i : Z) : Py.float :=
  match Struct.unpack_f (Py.ljust 4 0 (Py.slice i 4 hash_bytes)) with
  | Py.Ok value => value
  | Py.Raise _ => Py.float_0_0
  end.

(** The eight floats of a digest. *)
Definition digest_floats (hash_bytes : Py.bytes) : list Py.float :=
  map (fun k => float_at hash_bytes (4 * Z.of_nat k)) (seq 0 8).

End EmbedderForm.

(** ** What the two patterns of the extractor match *)

Module Patterns.
Import Re.

(** The character before a position that lies [u] after one preceded by
    [before]. *)
Definition last_or (before : option Py.char) (u : Py.str) : option Py.char :=
  match last u with
  | Some x => Some x
  | None => before
  end.

(** The matcher's context after the characters [u]. *)
Definition advance (u : Py.str) (c : ctx) : ctx :=
  fold_left (fun c x => step x c) u c.

Section Semantics.
Context {rt : Py.Runtime}.

(** The positions [(c', rest')] a pattern can lead to from [(c, rest)], by
    the structure of the pattern. *)
Fixpoint run (r : regex) (c : ctx) (rest : Py.str) (c' : ctx)
         (rest' : Py.str) : Prop :=
  match r with
  | Chr cs =>
      exists x, in_charset cs x = true /\ rest = x :: rest' /\ c' = step x c
  | Seq r1 r2 =>
      exists c1 rest1, run r1 c rest c1 rest1 /\ run r2 c1 rest1 c' rest'
  | Alt r1 r2 => run r1 c rest c' rest' \/ run r2 c rest c' rest'
  | Plus cs =>
      exists x u,
        forallb (in_charset cs) (x :: u) = true
        /\ rest = (x :: u) ++ rest' /\ c' = advance (x :: u) c
  | Rep n cs =>
      exists u,
        length u = n /\ forallb (in_charset cs) u = true
        /\ rest = u ++ rest' /\ c' = advance u c
  | WordB => at_boundary c rest = true /\ c' = c /\ rest' = rest
  | Group r' =>
      exists c1,
        run r' c rest c1 rest'
        /\ c' = mkCtx (prev c1)
                      (Some (firstn (length rest - length rest') rest))
  end.

(** A stretch of the text with no word character on either side. *)
Definition delimited (text g : Py.str) : Prop :=
  exists a b,
    text = a ++ g ++ b
    /\ is_word (last a) = false /\ is_word (head b) = false.

End Semantics.

(** A capital letter followed by at least one small letter. *)
Definition capitalized (w : Py.str) : bool :=
  match w with
  | x :: y :: u => in_charset upper x && forallb (in_charset lower) (y :: u)
  | _ => false
  end.

(** The text before the first space, and the text after it. *)
Fixpoint split_space (g : Py.str) : option (Py.str * Py.str) :=
  match g with
  | [] => None
  | x :: g' =>
      if (x =? 32)%N then Some ([], g')
      else match split_space g' with
           | Some (a, b) => Some (x :: a, b)
           | None => None
           end
  end.

(** Two capitalized words with one space between them. *)
Definition person_shaped (g : Py.str) : bool :=
  match split_space g with
  | Some (w1, w2) => capitalized w1 && capitalized w2
  | None => false
  end.

(** Four digits, the first a [1] or the first two [20]. *)
Definition year_shaped (g : Py.str) : bool :=
  match g with
  | [a; b; c; d] =>
      ((a =? 49)%N && in_charset digit b || (a =? 50)%N && (b =? 48)%N)
      && in_charset digit c && in_charset digit d
  | _ => false
  end.

End Patterns.

(** A second runtime, iterating sets in the opposite order. *)
Module OtherRuntime.

Definition reversed : Py.Runtime.
Proof.
  refine {| Py.isalnum := Py.ascii_isalnum;
            Py.set_iter := fun l => reverse (remove_dups l) |}.
  - reflexivity.
  - intros l. rewrite reverse_Permutation. apply NoDup_remove_dups.
  - intros l x. rewrite elem_of_reverse. apply elem_of_remove_dups.
Defined.

End OtherRuntime.

(** ** test_integration.py

    The control flow of the integration script: what is returned, what the
    process exits with and what happens to [os.environ].  What the script
    prints is left out, and a [print] is taken to succeed: on a standard
    output that cannot encode the marks of the messages, the [print] calls
    of the script raise.  The [gibram] package is not part of the sources: its
    constructor is a variable of the model, and so are the three tests that
    do nothing but drive it. *)

Module TestIntegration.

(** What a call can raise, as far as the script tells exceptions apart. *)
Inductive raised :=
| ConfigurationError
| OtherException.

Inductive outcome (A : Type) :=
| Returns (a : A)
| Raises (e : raised).
Arguments Returns {A} a.
Arguments Raises {A} e.

Definition OPENAI_API_KEY : Py.str := Py.lit "OPENAI_API_KEY".

(** Truth value of a [str]. *)
Definition truthy (s : Py.str) : bool :=
  match s with
  | [] => false
  | _ :: _ => true
  end.

Section Script.
(** Everything outside the process: the network, the server, the clock. *)
Variable Outside : Type.

Record World := mkWorld {
  environ : gmap Py.str Py.str;        (* os.environ *)
  outside : Outside
}.

Definition set_environ (env : gmap Py.str Py.str) (w : World) : World :=
  mkWorld env (outside w).

(** [os.getenv(name)] *)
Definition getenv (name : Py.str) (w : World) : option Py.str :=
  environ w !! name.

(** [os.environ.pop(name, None)], the popped value dropped. *)
Definition environ_pop (name : Py.str) (w : World) : World :=
  set_environ (delete name (environ w)) w.

(** [os.environ[name] = value] *)
Definition environ_set (name value : Py.str) (w : World) : World :=
  set_environ (<[name := value]> (environ w)) w.

(** A test function of the script. *)
Definition test := World -> outcome bool * World.

(** Lines 26 to 29: a socket is made, given its timeout, connected with
    [connect_ex(("localhost", 6161))] and closed; the result is that of
    [connect_ex], unless one of the four raises. *)
Variable probe : World -> outcome Z * World.

Definition check_environment (w : World) : bool * World :=
  match getenv OPENAI_API_KEY w with
  | None => (false, w)
  | Some api_key =>
      if negb (truthy api_key) then (false, w)
      else
        match probe w with
        | (Returns result, w) =>
            if result =? 0 then (true, w) else (false, w)
        | (Raises _, w) => (false, w)
        end
  end.

(** [from gibram import GibRAMIndexer, ConfigurationError]: [None] when the
    import raises; else the constructor [GibRAMIndexer(session_id=...)], every
    other argument at its default. *)
Variable gibram : option (Py.str -> World -> outcome unit * World).

Definition test_error_handling : test :=
  fun w =>
    match gibram with
    | None => (Returns false, w)                          (* line 178 *)
    | Some GibRAMIndexer =>
        match GibRAMIndexer [] w with
        | (Returns _, w) => (Returns false, w)            (* line 156 *)
        | (Raises OtherException, w) => (Returns false, w)  (* line 178 *)
        | (Raises ConfigurationError, w) =>
            let old_key := getenv OPENAI_API_KEY w in
            let w := environ_pop OPENAI_API_KEY w in
            let '(constructed, w) := GibRAMIndexer (Py.lit "test-error") w in
            (* finally *)
            let w :=
              match old_key with
              | Some key =>
                  if truthy key then environ_set OPENAI_API_KEY key w else w
              | None => w
              end in
            match constructed with
            | Returns _ => (Returns false, w)             (* line 168 *)
            | Raises ConfigurationError => (Returns true, w)
            | Raises OtherException => (Returns false, w) (* line 178 *)
            end
        end
    end.

Variables test_basic_workflow test_context_manager test_query_modes : test.

(** The loop of lines 255 to 261. *)
Fixpoint main_loop (tests : list (Py.str * test))
         (results : list (Py.str * bool)) (w : World)
  : list (Py.str * bool) * World :=
  match tests with
  | [] => (results, w)
  | (name, test_func) :: tests =>
      match test_func w with
      | (Returns passed, w) => main_loop tests (results ++ [(name, passed)]) w
      | (Raises _, w) => main_loop tests (results ++ [(name, false)]) w
      end
  end.

(** What the loop records for a call of a test: the value returned, and
    [False] for a test that raised. *)
Definition verdict (o : outcome bool) : bool :=
  match o with
  | Returns passed => passed
  | Raises _ => false
  end.

Definition tests : list (Py.str * test) :=
  [(Py.lit "Basic Workflow", test_basic_workflow);
   (Py.lit "Context Manager", test_context_manager);
   (Py.lit "Error Handling", test_error_handling);
   (Py.lit "Query Modes", test_query_modes)].

(** [sum(1 for _, passed in results if passed)] *)
Definition passed_count (results : list (Py.str * bool)) : nat :=
  length (filter (fun r => Is_true r.2) results).

(** [main()]; the result is the status the process exits with. *)
Definition main (w : World) : Z * World :=
  let '(ok, w) := check_environment w in
  if negb ok then (1, w)
  else
    let '(results, w) := main_loop tests [] w in
    let total_count := length results in
    if (passed_count results =? total_count)%nat then (0, w) else (1, w).

(** Each test returns [True], one after the other. *)
Fixpoint all_pass (tests : list (Py.str * test)) (w : World) : Prop :=
  match tests with
  | [] => True
  | (_, test_func) :: tests =>
      exists w', test_func w = (Returns true, w') /\ all_pass tests w'
  end.

(** The constructor leaves [os.environ] alone. *)
Definition keeps_environ : Prop :=
  forall GibRAMIndexer session_id w,
    gibram = Some GibRAMIndexer ->
    environ (GibRAMIndexer session_id w).2 = environ w.

End Script.

Arguments environ {Outside} w.
Arguments outside {Outside} w.
Arguments mkWorld {Outside} environ outside.
Arguments getenv {Outside} name w.
Arguments environ_pop {Outside} name w.
Arguments environ_set {Outside} name value w.
Arguments check_environment {Outside} probe w.
Arguments test_error_handling {Outside} gibram w.
Arguments main_loop {Outside} tests results w.
Arguments tests {Outside} gibram test_basic_workflow test_context_manager
  test_query_modes.
Arguments main {Outside} probe gibram test_basic_workflow
  test_context_manager test_query_modes w.
Arguments all_pass {Outside} tests w.
Arguments keeps_environ {Outside} gibram.

(** A stand-in for the package: no server, no state; the constructor wants a
    session id and a key in the environment. *)
Definition offline_constructor (session_id : Py.str) (w : World unit)
  : outcome unit * World unit :=
  if negb (truthy session_id) then (Raises ConfigurationError, w)
  else
    match getenv OPENAI_API_KEY w with
    | Some _ => (Returns tt, w)
    | None => (Raises ConfigurationError, w)
    end.

Definition offline_world (key : option Py.str) : World unit :=
  mkWorld (match key with
           | Some k => {[ OPENAI_API_KEY := k ]}
           | None => ∅
           end) tt.

(** The server answers. *)
Definition offline_probe (w : World unit) : outcome Z * World unit :=
  (Returns 0, w).

End TestIntegration.


(** * Properties of the embedder *)

Module EmbedderFacts.
Import CustomImplementation.

(** The digests of [b"abc"] and [b""], as [hashlib] gives them. *)
Example sha256_abc :
  Hashlib.sha256_digest [97; 98; 99]
  = [186; 120; 22; 191; 143; 1; 207; 234; 65; 65; 64; 222; 93; 174; 34; 35;
     176; 3; 97; 163; 150; 23; 122; 156; 180; 16; 255; 97; 242; 0; 21; 173].
Proof. vm_compute. reflexivity. Qed.

Example sha256_empty :
  Hashlib.sha256_digest []
  = [227; 176; 196; 66; 152; 252; 28; 20; 154; 251; 244; 200; 153; 111; 185;
     36; 39; 174; 65; 228; 100; 155; 147; 76; 164; 149; 153; 27; 120; 82;
     184; 85].
Proof. vm_compute. reflexivity. Qed.

(** ["é€😀".encode()] *)
Example encode_non_ascii :
  Py.encode [233%N; 8364%N; 128512%N]
  = Py.Ok [195; 169; 226; 130; 172; 240; 159; 152; 128].
Proof. vm_compute. reflexivity. Qed.

(** [DummyEmbedder(dimensions=3).embed(["a"])]: 0x1.032f94p-90,
    -0x1.7a3794p+22 and -0x1.6385f4p-25. *)
Example embed_a_3 :
  embed [Py.lit "a"] (mkDummyEmbedder 3)
  = (Py.Ok [[S754_finite false 8493002 (-113);
             S754_finite true 12393418 (-1);
             S754_finite true 11649786 (-48)]],
     mkDummyEmbedder 3).
Proof. vm_compute. reflexivity. Qed.

(** With more dimensions than the digest has floats, zeros follow. *)
Example embed_pads :
  (fun r => match r with
            | Py.Ok [v] => skipn 8 v
            | _ => []
            end) (embed [Py.lit "Einstein"] (mkDummyEmbedder 10)).1
  = [Py.float_0_0; Py.float_0_0].
Proof. vm_compute. reflexivity. Qed.

Lemma ljust_slice_length (i : Z) (hash_bytes : Py.bytes) :
  length (Py.ljust 4 0 (Py.slice i 4 hash_bytes)) = 4%nat.
Proof.
  unfold Py.ljust, Py.slice.
  rewrite length_app, repeat_length.
  pose proof (firstn_le_length 4 (skipn (Z.to_nat i) hash_bytes)). lia.
Qed.

Lemma unpack_f_total (chunk : Py.bytes) :
  length chunk = 4%nat -> exists value, Struct.unpack_f chunk = Py.Ok value.
Proof.
  destruct chunk as [|b0 [|b1 [|b2 [|b3 [|b4 chunk]]]]]; try discriminate.
  intros _. eexists. reflexivity.
Qed.

(** The chunk loop never raises and appends one float per index. *)
Lemma chunk_loop_ok (hash_bytes : Py.bytes) (idx : list Z) :
  forall vec0 : list Py.float,
  exists vec,
    fold_left
      (fun (acc : Py.result (list Py.float)) i =>
         vec ← acc;
         let chunk := Py.ljust 4 0 (Py.slice i 4 hash_bytes) in
         value ← Struct.unpack_f chunk;
         mret (vec ++ [value]))
      idx (Py.Ok vec0) = Py.Ok vec
    /\ length vec = (length vec0 + length idx)%nat.
Proof.
  induction idx as [|i idx IH]; intros vec0; simpl.
  - exists vec0. split; [reflexivity | lia].
  - destruct (unpack_f_total _ (ljust_slice_length i hash_bytes)) as [value Hv].
    rewrite Hv. simpl.
    destruct (IH (vec0 ++ [value])) as (vec & Hfold & Hlen).
    exists vec. split; [exact Hfold |].
    rewrite Hlen, length_app. simpl. lia.
Qed.

Lemma range_step_length (stop step : Z) :
  length (Py.range_step stop step) = Z.to_nat ((stop + step - 1) / step).
Proof. unfold Py.range_step. now rewrite length_map, length_seq. Qed.

Lemma hash_floats_ok (dims : Z) (hash_bytes : Py.bytes) :
  exists vec,
    hash_floats dims hash_bytes = Py.Ok vec
    /\ (0 <= dims -> Z.of_nat (length vec) <= dims)
    /\ (dims < 0 -> vec = []).
Proof.
  unfold hash_floats.
  destruct (chunk_loop_ok hash_bytes
              (Py.range_step (Z.min (Z.of_nat (length hash_bytes)) (dims * 4)) 4) [])
    as (vec & Hfold & Hlen).
  exists vec. split; [exact Hfold |].
  rewrite range_step_length in Hlen. simpl in Hlen.
  set (stop := Z.min (Z.of_nat (length hash_bytes)) (dims * 4)) in *.
  split; intros Hd.
  - assert ((stop + 4 - 1) / 4 <= dims).
    { apply Z.lt_succ_r. apply Z.div_lt_upper_bound; lia. }
    lia.
  - assert ((stop + 4 - 1) / 4 <= 0).
    { apply Z.lt_succ_r. apply Z.div_lt_upper_bound; lia. }
    apply length_zero_iff_nil. lia.
Qed.

(** With enough iterations allowed the padding loop leaves by its test. *)
Lemma pad_loop_length (n : nat) (dims : Z) :
  forall vec : list Py.float,
    Z.of_nat (length vec) <= dims ->
    dims - Z.of_nat (length vec) <= Z.of_nat n ->
    Z.of_nat (length (pad_loop n dims vec)) = dims.
Proof.
  induction n as [|n IH]; intros vec Hle Hn; simpl.
  - lia.
  - destruct (Z.ltb_spec (Z.of_nat (length vec)) dims) as [Hlt|Hge]; [| lia].
    apply IH; rewrite length_app; simpl; lia.
Qed.

Lemma pad_loop_done (n : nat) (dims : Z) (vec : list Py.float) :
  dims <= Z.of_nat (length vec) -> pad_loop n dims vec = vec.
Proof.
  intros Hge. destruct n as [|n]; simpl; [reflexivity |].
  destruct (Z.ltb_spec (Z.of_nat (length vec)) dims); [lia | reflexivity].
Qed.

Lemma slice_to_exact {A} (stop : Z) (l : list A) :
  Z.of_nat (length l) = stop -> Py.slice_to stop l = l.
Proof.
  intros Hlen. unfold Py.slice_to.
  destruct (Z.ltb_spec stop 0); [lia |].
  apply firstn_all2. lia.
Qed.

Lemma encode_char_total (c : Py.char) :
  Py.encodable_char c = true -> exists b, Py.encode_char c = Some b.
Proof.
  unfold Py.encodable_char, Py.encode_char. intros H.
  repeat match goal with
         | |- context [if ?b then _ else _] => destruct b eqn:?
         end; eauto; lia.
Qed.

Lemma encode_total (s : Py.str) :
  Py.encodable s = true -> exists b, Py.encode s = Py.Ok b.
Proof.
  unfold Py.encode, Py.encodable.
  induction s as [|c s IH]; simpl; [eauto |].
  intros H. apply andb_prop in H. destruct H as [Hc Hs].
  destruct (encode_char_total c Hc) as [b ->].
  destruct (IH Hs) as [bs Hbs].
  destruct (Py.encode_opt s); [eauto | discriminate].
Qed.

Lemma embed_text_length (dims : Z) (text : Py.str) (vec : list Py.float) :
  0 <= dims ->
  embed_text dims text = Py.Ok vec -> Z.of_nat (length vec) = dims.
Proof.
  intros Hd. unfold embed_text.
  destruct (Py.encode text) as [encoded|e]; simpl; [| discriminate].
  destruct (hash_floats_ok dims (Hashlib.sha256_digest encoded))
    as (v & -> & Hle & _). simpl.
  intros [= <-].
  rewrite slice_to_exact; apply pad_loop_length; lia.
Qed.

Lemma embed_text_total (dims : Z) (text : Py.str) :
  Py.encodable text = true ->
  exists vec, embed_text dims text = Py.Ok vec.
Proof.
  intros He. unfold embed_text.
  destruct (encode_total text He) as [encoded ->]. simpl.
  destruct (hash_floats_ok dims (Hashlib.sha256_digest encoded))
    as (v & -> & _). simpl. eauto.
Qed.

(** What the batch loop returns, and that it leaves the instance alone. *)
Lemma embed_loop_spec (texts : list Py.str) :
  forall (embeddings : list (list Py.float)) (self : DummyEmbedder),
    (exists vs,
        embed_loop texts embeddings self = (Py.Ok (embeddings ++ vs), self)
        /\ Forall2 (fun t v => embed_text (dimensions self) t = Py.Ok v) texts vs)
    \/ (exists e t,
           embed_loop texts embeddings self = (Py.Raise e, self)
           /\ t ∈ texts /\ embed_text (dimensions self) t = Py.Raise e).
Proof.
  induction texts as [|t texts IH]; intros embeddings self.
  - left. exists []. simpl. rewrite app_nil_r. split; [reflexivity | constructor].
  - cbn [embed_loop]. unfold mbind, method_bind, attr, lift.
    destruct (embed_text (dimensions self) t) as [v|e] eqn:Ht.
    + destruct (IH (embeddings ++ [v]) self)
        as [(vs & Hrun & Hall) | (e & t' & Hrun & Hin & Ht')].
      * left. exists (v :: vs). rewrite Hrun, <- app_assoc. simpl.
        split; [reflexivity | constructor; assumption].
      * right. exists e, t'. rewrite Hrun. repeat split; [| assumption].
        now apply list_elem_of_further.
    + right. exists e, t. repeat split; [apply list_elem_of_here | assumption].
Qed.

Lemma embed_spec (texts : list Py.str) (self : DummyEmbedder) :
  (exists vs,
      embed texts self = (Py.Ok vs, self)
      /\ Forall2 (fun t v => embed_text (dimensions self) t = Py.Ok v) texts vs)
  \/ (exists e t,
         embed texts self = (Py.Raise e, self)
         /\ t ∈ texts /\ embed_text (dimensions self) t = Py.Raise e).
Proof. exact (embed_loop_spec texts [] self). Qed.

Lemma embed_self (texts : list Py.str) (self : DummyEmbedder) :
  snd (embed texts self) = self.
Proof.
  destruct (embed_spec texts self)
    as [(vs & -> & _) | (e & t & -> & _)]; reflexivity.
Qed.

Lemma embed_Ok_inv (texts : list Py.str) (self : DummyEmbedder) vs :
  fst (embed texts self) = Py.Ok vs ->
  Forall2 (fun t v => embed_text (dimensions self) t = Py.Ok v) texts vs.
Proof.
  destruct (embed_spec texts self)
    as [(vs' & -> & Hall) | (e & t & -> & _)]; simpl.
  - now intros [= <-].
  - discriminate.
Qed.

Lemma embed_singleton (text : Py.str) (self : DummyEmbedder) :
  embed [text] self =
  match embed_text (dimensions self) text with
  | Py.Ok v => (Py.Ok [v], self)
  | Py.Raise e => (Py.Raise e, self)
  end.
Proof.
  unfold embed. cbn [embed_loop]. unfold mbind, method_bind, attr, lift.
  destruct (embed_text (dimensions self) text); reflexivity.
Qed.


(** C1, as amended: for an instance with a non-negative [dimensions] and
    texts that UTF-8 can encode (no surrogate code points), [embed] returns
    one vector per text, the i-th being the vector of the i-th text, each of
    length [dimensions]. *)
Theorem embed_one_vector_per_text (self : DummyEmbedder) (texts : list Py.str) :
  0 <= dimensions self ->
  Forall (fun t => Py.encodable t = true) texts ->
  one_vector_per_text self texts.
Proof.
  intros Hd Henc. unfold one_vector_per_text.
  destruct (embed_spec texts self)
    as [(vs & Hrun & Hall) | (e & t & _ & Hin & Ht)].
  - exists vs. rewrite Hrun. simpl. split; [reflexivity |].
    split; [symmetry; eapply Forall2_length; eassumption |].
    split.
    + intros i t Hi.
      destruct (Forall2_lookup_l _ _ _ _ _ Hall Hi) as (v & Hv & Ht).
      exists v. split; [assumption |].
      now rewrite embed_singleton, Ht.
    + apply Forall_forall. intros v Hv.
      apply list_elem_of_lookup in Hv. destruct Hv as [i Hi].
      destruct (Forall2_lookup_r _ _ _ _ _ Hall Hi) as (t & _ & Ht).
      eapply embed_text_length; eassumption.
  - exfalso.
    rewrite Forall_forall in Henc.
    destruct (embed_text_total (dimensions self) t) as [v Hv].
    + now apply Henc.
    + congruence.
Qed.

Lemma embed_one_vector_per_text_witness :
  0 <= dimensions (mkDummyEmbedder 3)
  /\ Forall (fun t => Py.encodable t = true) [Py.lit "a"; Py.lit "Einstein"]
  /\ one_vector_per_text (mkDummyEmbedder 3) [Py.lit "a"; Py.lit "Einstein"].
Proof.
  assert (H1 : 0 <= dimensions (mkDummyEmbedder 3)) by (simpl; lia).
  assert (H2 : Forall (fun t => Py.encodable t = true)
                      [Py.lit "a"; Py.lit "Einstein"])
    by (repeat constructor).
  exact (conj H1 (conj H2 (embed_one_vector_per_text _ _ H1 H2))).
Defined.

(** C1 as stated fails: with [dimensions = -1] the vector returned for
    ["a"] is empty, and a text holding a lone surrogate makes [embed] raise
    instead of returning. *)
Lemma embed_one_vector_per_text_counterexample :
  ~ one_vector_per_text (mkDummyEmbedder (-1)) [Py.lit "a"]
  /\ ~ one_vector_per_text (mkDummyEmbedder 2) [[55296%N]].
Proof.
  split; intros (vs & Hrun & _ & _ & Hdim).
  - vm_compute in Hrun. injection Hrun as <-.
    inversion Hdim as [|v l Hv _]. simpl in Hv. discriminate.
  - vm_compute in Hrun. discriminate.
Qed.

(** C2: a second call of [embed] with the same texts on the instance as the
    first call left it returns the same result, and the instance is as it
    was; moreover a text embedded by that instance in any other batch gets
    the vector it got in this one. *)
Theorem embed_deterministic (self : DummyEmbedder) (texts : list Py.str) :
  let call1 := embed texts self in
  let call2 := embed texts (snd call1) in
  fst call2 = fst call1
  /\ snd call2 = self
  /\ forall other i j t vs ws,
      texts !! i = Some t -> other !! j = Some t ->
      fst call1 = Py.Ok vs -> fst (embed other (snd call1)) = Py.Ok ws ->
      ws !! j = vs !! i /\ is_Some (vs !! i).
Proof.
  cbv zeta. rewrite !embed_self.
  split; [reflexivity |]. split; [reflexivity |].
  intros other i j t vs ws Hi Hj Hvs Hws.
  apply embed_Ok_inv in Hvs, Hws.
  destruct (Forall2_lookup_l _ _ _ _ _ Hvs Hi) as (v & Hv & Ht).
  destruct (Forall2_lookup_l _ _ _ _ _ Hws Hj) as (w & Hw & Ht').
  rewrite Hv, Hw. split; [congruence | eauto].
Qed.

Lemma embed_deterministic_witness :
  exists vs ws,
    fst (embed [Py.lit "Python"; Py.lit "Rust"] (mkDummyEmbedder 4)) = Py.Ok vs
    /\ fst (embed [Py.lit "Rust"]
                  (snd (embed [Py.lit "Python"; Py.lit "Rust"]
                              (mkDummyEmbedder 4)))) = Py.Ok ws
    /\ ws !! 0%nat = vs !! 1%nat /\ is_Some (vs !! 1%nat).
Proof.
  pose (self := mkDummyEmbedder 4).
  pose (texts := [Py.lit "Python"; Py.lit "Rust"]).
  pose (other := [Py.lit "Rust"]).
  destruct (fst (embed texts self)) as [vs|e] eqn:Hvs;
    [| vm_compute in Hvs; discriminate].
  destruct (fst (embed other (snd (embed texts self)))) as [ws|e] eqn:Hws;
    [| vm_compute in Hws; discriminate].
  exists vs, ws. split; [exact Hvs |]. split; [exact Hws |].
  exact (proj2 (proj2 (embed_deterministic self texts))
           other 1%nat 0%nat (Py.lit "Rust") vs ws eq_refl eq_refl Hvs Hws).
Defined.

(** C3: [embed_single(t)] returns the one element of [embed([t])], and
    raises what [embed([t])] raises. *)
Theorem embed_single_is_embed_of_singleton (self : DummyEmbedder) (t : Py.str) :
  match embed [t] self with
  | (Py.Ok vs, self') =>
      exists v, vs = [v] /\ embed_single t self = (Py.Ok v, self')
  | (Py.Raise e, self') => embed_single t self = (Py.Raise e, self')
  end.
Proof.
  unfold embed_single, mbind, method_bind.
  rewrite embed_singleton.
  destruct (embed_text (dimensions self) t) as [v|e]; [| reflexivity].
  exists v. split; reflexivity.
Qed.

End EmbedderFacts.

(** * Properties of the matcher *)

Module ReFacts.
Import Re.

(** What [re.findall] returns on some texts. *)
Example findall_persons :
  findall (rt := Py.ascii_runtime) CustomImplementation.person_pattern
          (Py.lit "Marie Curie XMarie Curie Marie Curies Aa Bb Cc Abc_Def Ghi Klm")
  = [Py.lit "Marie Curie"; Py.lit "Curie Marie"; Py.lit "Curies Aa";
     Py.lit "Bb Cc"; Py.lit "Ghi Klm"].
Proof. vm_compute. reflexivity. Qed.

Example findall_person_backtracks :
  findall (rt := Py.ascii_runtime) CustomImplementation.person_pattern
          (Py.lit "ABc Def Gh")
  = [Py.lit "Def Gh"].
Proof. vm_compute. reflexivity. Qed.

Example findall_years :
  findall (rt := Py.ascii_runtime) CustomImplementation.year_pattern
          (Py.lit "1903 2024 12345 1999x 2100 0999 1000 20000 2000 3000 1879,1880 _1990 1991_ 19 92")
  = [Py.lit "1903"; Py.lit "2024"; Py.lit "1000"; Py.lit "2000";
     Py.lit "1879"; Py.lit "1880"].
Proof. vm_compute. reflexivity. Qed.

Lemma substring_nil (s : Py.str) : Py.substring [] s.
Proof. exists [], s. reflexivity. Qed.

Lemma substring_suffix (g rest s : Py.str) :
  Py.substring g rest -> rest `suffix_of` s -> Py.substring g s.
Proof.
  intros (a & b & ->) [u ->]. exists (u ++ a), b. now rewrite <- app_assoc.
Qed.

Lemma startswith_app (g b : Py.str) : Py.startswith (g ++ b) g = true.
Proof.
  induction g as [|x g IH]; simpl; [now destruct b |].
  now rewrite N.eqb_refl, IH.
Qed.

Lemma contains_startswith (s g : Py.str) :
  Py.startswith s g = true -> Py.contains s g = true.
Proof. intros H. destruct s; cbn [Py.contains]; now rewrite H. Qed.

Lemma contains_substring (g s : Py.str) :
  Py.substring g s -> Py.contains s g = true.
Proof.
  intros (a & b & ->).
  induction a as [|x a IH]; simpl.
  - apply contains_startswith, startswith_app.
  - rewrite IH. apply orb_true_r.
Qed.

Section Matcher.
Context {rt : Py.Runtime}.

Lemma reaches_refl c rest : reaches c rest c rest.
Proof. split; [reflexivity | now left]. Qed.

Lemma reaches_trans c rest c1 rest1 c2 rest2 :
  reaches c rest c1 rest1 -> reaches c1 rest1 c2 rest2 ->
  reaches c rest c2 rest2.
Proof.
  intros [Hs1 Hg1] [Hs2 Hg2]. split; [etransitivity; eassumption |].
  destruct Hg2 as [Heq | (g & Hg & Hsub)].
  - rewrite Heq. exact Hg1.
  - right. exists g. split; [assumption |].
    eapply substring_suffix; eassumption.
Qed.

Lemma reaches_step x c rest : reaches c (x :: rest) (step x c) rest.
Proof. split; [now exists [x] | now left]. Qed.

Ltac chain H :=
  let c' := fresh "c" in
  let rest' := fresh "rest" in
  let Hr := fresh "Hreach" in
  let Hk := fresh "Hk" in
  destruct H as (c' & rest' & Hr & Hk);
  exists c', rest'; split; [| exact Hk];
  try (eapply reaches_trans; [| exact Hr]; try apply reaches_step).

Lemma m_plus_sound cs (k : cont) res :
  forall rest c,
    m_plus cs c rest k = Some res ->
    exists c' rest', reaches c rest c' rest' /\ k c' rest' = Some res.
Proof.
  induction rest as [|x rest IH]; intros c; simpl; [discriminate |].
  destruct (in_charset cs x); [| discriminate].
  destruct (m_plus cs (step x c) rest k) eqn:Hmore.
  - intros [= ->]. chain (IH _ Hmore).
  - intros Hk. exists (step x c), rest. split; [apply reaches_step | exact Hk].
Qed.

Lemma m_rep_sound cs (k : cont) res :
  forall n rest c,
    m_rep n cs c rest k = Some res ->
    exists c' rest', reaches c rest c' rest' /\ k c' rest' = Some res.
Proof.
  induction n as [|n IH]; intros rest c; simpl.
  - intros Hk. exists c, rest. split; [apply reaches_refl | exact Hk].
  - destruct rest as [|x rest]; [discriminate |].
    destruct (in_charset cs x); [| discriminate].
    intros Hm. chain (IH _ _ Hm).
Qed.

(** A successful match went through its continuation at a position the
    pattern can reach. *)
Lemma m_sound (r : regex) :
  forall c rest (k : cont) res,
    m r c rest k = Some res ->
    exists c' rest', reaches c rest c' rest' /\ k c' rest' = Some res.
Proof.
  induction r as [cs | r1 IH1 r2 IH2 | r1 IH1 r2 IH2 | cs | n cs | | r IH];
    intros c rest k res; simpl.
  - destruct rest as [|x rest]; [discriminate |].
    destruct (in_charset cs x); [| discriminate].
    intros Hk. exists (step x c), rest. split; [apply reaches_step | exact Hk].
  - intros Hm. apply IH1 in Hm. destruct Hm as (c1 & rest1 & Hr1 & Hm).
    apply IH2 in Hm. destruct Hm as (c2 & rest2 & Hr2 & Hk).
    exists c2, rest2. split; [eapply reaches_trans; eassumption | exact Hk].
  - destruct (m r1 c rest k) eqn:H1.
    + intros [= ->]. now apply IH1.
    + apply IH2.
  - apply m_plus_sound.
  - apply m_rep_sound.
  - destruct (at_boundary c rest); [| discriminate].
    intros Hk. exists c, rest. split; [apply reaches_refl | exact Hk].
  - intros Hm. apply IH in Hm. destruct Hm as (c1 & rest1 & [Hs Hg] & Hk).
    eexists _, rest1. split; [| exact Hk].
    split; [exact Hs |]. right. eexists. split; [reflexivity |].
    destruct Hs as [u ->].
    exists [], rest1. simpl. f_equal.
    rewrite length_app.
    replace (length u + length rest1 - length rest1)%nat with (length u) by lia.
    now rewrite firstn_app, firstn_all, Nat.sub_diag, firstn_0, app_nil_r.
Qed.

Lemma match_here_substring r before s g n :
  match_here r before s = Some (g, n) -> Py.substring g s.
Proof.
  unfold match_here.
  destruct (m r (mkCtx before None) s (fun c rest => Some (c, rest)))
    as [[c rest]|] eqn:Hm; [| discriminate].
  apply m_sound in Hm. destruct Hm as (c' & rest' & [_ Hg] & [= -> ->]).
  intros [= <- _].
  destruct Hg as [-> | (g & -> & Hsub)]; [apply substring_nil | exact Hsub].
Qed.

Lemma substring_cons x (g s : Py.str) : Py.substring g s -> Py.substring g (x :: s).
Proof. intros (a & b & ->). now exists (x :: a), b. Qed.

Lemma scan_substring r g :
  forall s before skip, g ∈ scan r before skip s -> Py.substring g s.
Proof.
  induction s as [|x s IH]; intros before skip; simpl.
  - destruct (match_here r before []) as [[g' n]|] eqn:Hm.
    + intros ->%list_elem_of_singleton.
      eapply match_here_substring; eassumption.
    + intros []%elem_of_nil.
  - destruct skip as [|skip].
    + destruct (match_here r before (x :: s)) as [[g' n]|] eqn:Hm.
      * intros [-> | Hin]%elem_of_cons.
        -- eapply match_here_substring; eassumption.
        -- apply substring_cons. eapply IH; eassumption.
      * intros Hin. apply substring_cons. eapply IH; eassumption.
    + intros Hin. apply substring_cons. eapply IH; eassumption.
Qed.

(** Every string [findall] returns occurs in the text. *)
Lemma findall_contains r text g :
  g ∈ findall r text -> Py.contains text g = true.
Proof.
  intros Hin. apply contains_substring.
  eapply scan_substring; exact Hin.
Qed.

End Matcher.
End ReFacts.

(** * Properties of the extractor *)

Module ExtractorFacts.
Import CustomImplementation.

Lemma append_loop {A B} (f : A -> B) (l : list A) :
  forall acc, fold_left (fun acc x => acc ++ [f x]) l acc = acc ++ (f <$> l).
Proof.
  induction l as [|x l IH]; intros acc; simpl.
  - now rewrite app_nil_r.
  - rewrite IH, <- app_assoc. reflexivity.
Qed.

Lemma guarded_append_loop {A B} (f : A -> B) (guard : A -> bool) (l : list A) :
  (forall x, x ∈ l -> guard x = true) ->
  forall acc,
    fold_left (fun acc x => if guard x then acc ++ [f x] else acc) l acc
    = acc ++ (f <$> l).
Proof.
  induction l as [|x l IH]; intros Hg acc; simpl.
  - now rewrite app_nil_r.
  - rewrite (Hg x) by apply list_elem_of_here.
    rewrite IH, <- app_assoc; [reflexivity |].
    intros y Hy. apply Hg. now apply list_elem_of_further.
Qed.

Lemma nested_loop {A C} (inner : A -> list C -> list C) (f : A -> list C)
      (l : list A) :
  (forall x acc, x ∈ l -> inner x acc = acc ++ f x) ->
  forall acc, fold_left (fun acc x => inner x acc) l acc = acc ++ (l ≫= f).
Proof.
  induction l as [|x l IH]; intros Hin acc; simpl.
  - now rewrite app_nil_r.
  - rewrite (Hin x) by apply list_elem_of_here.
    rewrite IH, <- app_assoc; [reflexivity |].
    intros y acc' Hy. apply Hin. now apply list_elem_of_further.
Qed.

(** In a duplicate-free list, the elements produced from [x] are all that a
    filter rejecting everything produced from the others lets through. *)
Lemma filter_bind_NoDup {A B} (P : B -> Prop) `{forall b, Decision (P b)}
      (f : A -> list B) (x : A) (l : list A) :
  NoDup l -> x ∈ l ->
  (forall y, y ∈ l -> y <> x -> filter P (f y) = []) ->
  filter P (l ≫= f) = filter P (f x).
Proof.
  induction l as [|y l IH]; intros Hnd Hin Hother.
  - now apply elem_of_nil in Hin.
  - apply NoDup_cons in Hnd. destruct Hnd as [Hy Hnd].
    rewrite bind_cons, filter_app.
    apply elem_of_cons in Hin. destruct Hin as [<- | Hin].
    + assert (Hrest : filter P (l ≫= f) = []).
      { clear IH. induction l as [|z l IHl]; [reflexivity |].
        rewrite bind_cons, filter_app.
        rewrite Hother; [| do 2 constructor | intros ->; apply Hy; constructor].
        simpl. apply IHl.
        - intros Hx. apply Hy. now constructor.
        - now apply NoDup_cons in Hnd.
        - intros z' Hz'. apply Hother.
          apply elem_of_cons in Hz'. destruct Hz' as [-> | Hz'].
          + constructor.
          + do 2 constructor. exact Hz'. }
      now rewrite Hrest, app_nil_r.
    + rewrite Hother; [| constructor | intros ->; contradiction].
      simpl. apply IH; [assumption .. |].
      intros z Hz. apply Hother. now constructor.
Qed.

Section Extractor.
Context {rt : Py.Runtime}.

(** The three loops of [extract], in closed form. *)
Lemma extract_body_spec (text : Py.str) :
  extract_body text =
  ((person_entity <$> persons_of text) ++ (year_entity <$> years_of text),
   persons_of text ≫= (fun person => mentioned_in person <$> years_of text)).
Proof.
  unfold extract_body. fold (persons_of text) (years_of text).
  rewrite !append_loop. simpl. f_equal.
  rewrite (nested_loop _ (fun person => mentioned_in person <$> years_of text));
    [reflexivity |].
  intros person acc Hp.
  apply Py.set_iter_In, ReFacts.findall_contains in Hp. rewrite Hp. simpl.
  apply (guarded_append_loop (mentioned_in person) (Py.contains text)).
  intros year Hy.
  now apply Py.set_iter_In, ReFacts.findall_contains in Hy.
Qed.


Lemma extract_run (text : Py.str) (self : SimpleRegexExtractor) :
  extract text self = (Py.Ok (extract_body text), self).
Proof. unfold extract, mret, method_ret. reflexivity. Qed.

Lemma fmap_as_bind {A B} (f : A -> B) (l : list A) :
  f <$> l = l ≫= (fun x => [f x]).
Proof. induction l as [|x l IH]; [reflexivity |]. now rewrite fmap_cons, bind_cons, IH. Qed.

Lemma filter_fmap_none {A B} (P : B -> Prop) `{forall b, Decision (P b)}
      (f : A -> B) (l : list A) :
  (forall x, ~ P (f x)) -> filter P (f <$> l) = [].
Proof.
  intros Hno. induction l as [|x l IH]; [reflexivity |].
  rewrite fmap_cons, filter_cons, decide_False by apply Hno. exact IH.
Qed.

(** C10: every relationship [extract] returns is a ["MENTIONED_IN"] of
    weight 0.5 from the title of a Person entity to the title of a Year
    entity of the same result, and each person and year found in the text
    are joined by exactly one relationship. *)
Theorem extract_relationships_anchored (text : Py.str)
        (self : SimpleRegexExtractor) :
  match fst (extract text self) with
  | Py.Ok (entities, relationships) =>
      (forall r, r ∈ relationships ->
         relationship_type r = Py.lit "MENTIONED_IN"
         /\ weight r = Py.float_0_5
         /\ (exists e, e ∈ entities /\ type e = Py.lit "Person"
                       /\ title e = source_title r)
         /\ (exists e, e ∈ entities /\ type e = Py.lit "Year"
                       /\ title e = target_title r))
      /\ (forall person year,
            person ∈ Re.findall person_pattern text ->
            year ∈ Re.findall year_pattern text ->
            length (filter (fun r => source_title r = person
                                     /\ target_title r = year)
                           relationships) = 1%nat)
  | Py.Raise _ => False
  end.
Proof.
  rewrite extract_run. cbn [fst]. rewrite extract_body_spec. split.
  - intros r Hr.
    apply list_elem_of_bind in Hr. destruct Hr as (person & Hr & Hp).
    apply list_elem_of_fmap in Hr. destruct Hr as (year & -> & Hy).
    split; [reflexivity |]. split; [reflexivity |]. split.
    + exists (person_entity person). split; [| split; reflexivity].
      apply elem_of_app. left. now apply list_elem_of_fmap_2.
    + exists (year_entity year). split; [| split; reflexivity].
      apply elem_of_app. right. now apply list_elem_of_fmap_2.
  - intros person year Hp Hy.
    apply Py.set_iter_In in Hp, Hy. fold (persons_of text) in Hp.
    fold (years_of text) in Hy.
    rewrite (filter_bind_NoDup _ _ person);
      [| apply Py.set_iter_NoDup | exact Hp |].
    + rewrite fmap_as_bind.
      rewrite (filter_bind_NoDup _ _ year);
        [| apply Py.set_iter_NoDup | exact Hy |].
      * rewrite filter_cons, decide_True by (split; reflexivity). reflexivity.
      * intros y _ Hne. rewrite filter_cons, decide_False; [reflexivity |].
        simpl. intros [_ Heq]. contradiction.
    + intros p _ Hne. apply filter_fmap_none.
      simpl. intros y [Heq _]. contradiction.
Qed.

End Extractor.

Lemma extract_relationships_anchored_witness :
  exists entities relationships,
    fst (extract (rt := Py.ascii_runtime)
                 (Py.lit "Albert Einstein was born in 1879.")
                 SimpleRegexExtractor_init)
    = Py.Ok (entities, relationships)
    /\ length (filter (fun r => source_title r = Py.lit "Albert Einstein"
                                /\ target_title r = Py.lit "1879")
                      relationships) = 1%nat.
Proof.
  pose proof (extract_relationships_anchored
                (rt := Py.ascii_runtime)
                (Py.lit "Albert Einstein was born in 1879.")
                SimpleRegexExtractor_init) as H.
  destruct (fst (extract (Py.lit "Albert Einstein was born in 1879.")
                         SimpleRegexExtractor_init))
    as [[entities relationships]|e]; [| contradiction].
  exists entities, relationships. split; [reflexivity |].
  apply (proj2 H); vm_compute; constructor.
Defined.

End ExtractorFacts.

(** * Properties of the engine operations *)

Module EngineFacts.
Import Engine.

(** ** Batches *)

Lemma batches_upto_concat {A} (n : nat) :
  (0 < n)%nat ->
  forall (fuel : nat) (docs : list A),
    (length docs <= fuel)%nat -> concat (batches_upto fuel n docs) = docs.
Proof.
  intros Hn. induction fuel as [|fuel IH]; intros docs Hlen.
  - destruct docs; [reflexivity | simpl in Hlen; lia].
  - destruct docs as [|d docs]; [reflexivity |].
    cbn [batches_upto concat]. rewrite IH.
    + apply take_drop.
    + rewrite length_drop. simpl in *. lia.
Qed.

Lemma batches_concat {A} (batch_size : Z) (docs : list A) :
  concat (batches batch_size docs) = docs.
Proof. unfold batches. apply batches_upto_concat; lia. Qed.

(** ** Evidence *)

Lemma keep_latest_all {A} (n : nat) (l : list A) :
  (length l <= n)%nat -> keep_latest n l = l.
Proof.
  intros H. unfold keep_latest.
  now replace (length l - n)%nat with 0%nat by lia.
Qed.

Lemma keep_latest_app {A} (n : nat) (a c : list A) :
  keep_latest n (keep_latest n a ++ c) = keep_latest n (a ++ c).
Proof.
  unfold keep_latest.
  rewrite !length_app, length_drop, !drop_app, drop_drop, length_drop.
  f_equal; f_equal; lia.
Qed.

Lemma accumulate_app {A} (n : nat) (old news1 news2 : list A) :
  accumulate n (accumulate n old news1) news2
  = accumulate n old (news1 ++ news2).
Proof.
  destruct news1 as [|x news1]; [reflexivity |].
  destruct news2 as [|y news2]; [now rewrite app_nil_r |].
  cbn [accumulate app]. rewrite keep_latest_app.
  now rewrite <- app_assoc.
Qed.

Lemma last_keep_latest {A} (n : nat) (l : list A) :
  (0 < n)%nat -> last (keep_latest n l) = last l.
Proof.
  intros Hn. unfold keep_latest.
  destruct (decide (l = [])) as [-> | Hne]; [reflexivity |].
  assert (length l <> 0%nat) by (destruct l; [congruence | simpl; lia]).
  rewrite <- (take_drop (length l - n) l) at 3.
  rewrite last_app.
  destruct (last (drop (length l - n) l)) eqn:Hlast; [reflexivity |].
  apply last_None in Hlast.
  apply (f_equal length) in Hlast. rewrite length_drop in Hlast.
  simpl in Hlast. lia.
Qed.

(** The newest piece of evidence is the last one retained. *)
Lemma last_accumulate {A} (n : nat) (old news : list A) :
  (0 < n)%nat -> news <> [] -> last (accumulate n old news) = last news.
Proof.
  intros Hn Hne. destruct news as [|x news]; [congruence |].
  cbn [accumulate]. rewrite last_keep_latest by assumption.
  rewrite last_app.
  destruct (last (x :: news)) eqn:Hlast; [reflexivity |].
  now apply last_None in Hlast.
Qed.

(** Evidence that fits under the bound is appended whole. *)
Lemma accumulate_fits {A} (n : nat) (old news : list A) :
  (length old + length news <= n)%nat -> accumulate n old news = old ++ news.
Proof.
  intros Hfit. destruct news as [|x news]; [now rewrite app_nil_r |].
  cbn [accumulate]. apply keep_latest_all. now rewrite length_app.
Qed.

Section Indexing.
Context {ucd : Normalization}.
Variable chunker : Z -> Z -> Py.str -> list Py.str.
Variable default_extractor : Py.str -> Extractor.
Variable default_embedder : Py.str -> Embedder.
Variable detector : list Entity -> list Relationship -> list Community.
Variable max_evidence : nat.
Variable weight_ceiling : R.
Variable weight_value : Py.float -> R.

#[local] Abbreviation init :=
  (GibRAMIndexer_init default_extractor default_embedder).
#[local] Abbreviation bound := (evidence_bound max_evidence).
#[local] Abbreviation grows := (grows bound).
#[local] Abbreviation step_ok := (step_ok bound).
#[local] Abbreviation merge_entity := (merge_entity max_evidence).
#[local] Abbreviation merge_relationship :=
  (merge_relationship max_evidence weight_ceiling weight_value).
#[local] Abbreviation process_unit :=
  (process_unit max_evidence weight_ceiling weight_value).
#[local] Abbreviation process_document :=
  (process_document chunker max_evidence weight_ceiling weight_value).
#[local] Abbreviation process_batch :=
  (process_batch chunker max_evidence weight_ceiling weight_value).
#[local] Abbreviation index_documents :=
  (index_documents chunker detector max_evidence weight_ceiling weight_value).
#[local] Abbreviation mentions := (mentions chunker).
#[local] Abbreviation reachable :=
  (reachable chunker default_extractor default_embedder detector
             max_evidence weight_ceiling weight_value).

(** ** Growth of the graph *)

Lemma grows_refl m : grows [] m m.
Proof.
  split.
  - intros k. rewrite fmap_nil, elem_of_nil. tauto.
  - intros k e He. exists e. unfold under. rewrite filter_nil. simpl.
    split_and!; auto with lia.
Qed.

Lemma grows_trans ms1 ms2 m m1 m2 :
  grows ms1 m m1 -> grows ms2 m1 m2 -> grows (ms1 ++ ms2) m m2.
Proof.
  intros [Hd1 He1] [Hd2 He2]. split.
  - intros k. rewrite Hd2, Hd1, fmap_app, elem_of_app. tauto.
  - intros k e He.
    destruct (He1 k e He) as (e1 & H1 & Hid1 & Ht1 & Hty1 & Hc1 & Hev1).
    destruct (He2 k e1 H1) as (e2 & H2 & Hid2 & Ht2 & Hty2 & Hc2 & Hev2).
    exists e2. unfold under in *.
    rewrite filter_app, length_app, fmap_app.
    split_and!; [assumption | congruence .. | lia |].
    now rewrite Hev2, Hev1, accumulate_app.
Qed.

Lemma step_ok_refl s : step_ok [] s s.
Proof. split; [repeat split | split; [apply grows_refl | auto]]. Qed.

Lemma step_ok_trans ms1 ms2 s s1 s2 :
  step_ok ms1 s s1 -> step_ok ms2 s1 s2 -> step_ok (ms1 ++ ms2) s s2.
Proof.
  intros ((A1 & B1 & C1 & D1) & G1 & K1) ((A2 & B2 & C2 & D2) & G2 & K2).
  split; [repeat split; congruence |].
  split; [eapply grows_trans; eassumption | auto].
Qed.

(** A step that leaves the graph and the setup alone. *)
Lemma step_ok_frame s s' :
  same_setup s s' -> entities s' = entities s -> step_ok [] s s'.
Proof.
  intros Hs He. split; [assumption |]. rewrite He.
  split; [apply grows_refl | auto].
Qed.

(** ** Construction *)

(** C5: a configuration with an empty session id, or without a credential
    while a default capability is selected, or with an overlap of at least
    the chunk size, makes the constructor fail with ConfigurationError; no
    session comes out of it, so nothing can be indexed. *)
Theorem init_rejects_invalid_configuration (cfg : Config)
        (env_key : option Py.str) :
  session_id cfg = []
  \/ (uses_default cfg = true /\ credential cfg env_key = None)
  \/ chunk_size cfg <= chunk_overlap cfg ->
  init cfg env_key = Failed ConfigurationError.
Proof.
  intros Hbad. unfold GibRAMIndexer_init.
  case_bool_decide as Hid; [reflexivity |].
  destruct (Z.leb_spec (chunk_size cfg) 0); [reflexivity |].
  destruct (Z.leb_spec (chunk_size cfg) (chunk_overlap cfg)); [reflexivity |].
  destruct Hbad as [Hbad | [[Hdef Hcred] | Hbad]]; [contradiction | | lia].
  rewrite Hcred. unfold uses_default in Hdef.
  apply orb_prop in Hdef.
  destruct Hdef as [->%bool_decide_eq_true | Hdef]; [reflexivity |].
  apply bool_decide_eq_true in Hdef. rewrite Hdef.
  now destruct (extractor cfg).
Qed.

(** ** Counting documents *)

Lemma process_unit_documents doc acc ic :
  documents_indexed (process_unit doc acc ic).2 = documents_indexed acc.2.
Proof.
  destruct acc as [s st], ic as [index content].
  unfold Engine.process_unit.
  destruct (prepare s content) as [[[v ents] rels]|]; simpl; [| lia].
  destruct (foldl _ _ rels). simpl. lia.
Qed.

Lemma process_units_documents doc units :
  forall acc,
    documents_indexed (foldl (process_unit doc) acc units).2
    = documents_indexed acc.2.
Proof.
  induction units as [|u units IH]; intros acc; simpl; [reflexivity |].
  now rewrite IH, process_unit_documents.
Qed.

Lemma process_document_documents acc document :
  documents_indexed (process_document acc document).2
  = S (documents_indexed acc.2).
Proof.
  destruct acc as [s st]. unfold Engine.process_document.
  match goal with
  | |- context [foldl ?f ?a ?l] =>
      pose proof (process_units_documents (next_document s) l a) as H;
      destruct (foldl f a l) as [s' st']
  end.
  simpl in *. lia.
Qed.

Lemma process_batch_documents batch :
  forall acc,
    documents_indexed (process_batch acc batch).2
    = (documents_indexed acc.2 + length batch)%nat.
Proof.
  unfold Engine.process_batch.
  induction batch as [|d batch IH]; intros acc; simpl; [lia |].
  rewrite IH, process_document_documents. lia.
Qed.

Lemma process_batches_documents bs :
  forall acc,
    documents_indexed (foldl process_batch acc bs).2
    = (documents_indexed acc.2 + length (concat bs))%nat.
Proof.
  induction bs as [|b bs IH]; intros acc; simpl; [lia |].
  rewrite IH, process_batch_documents, length_app. lia.
Qed.

(** C7: whatever the batch size, [index_documents] reports as many
    documents indexed as it was given. *)
Theorem index_documents_counts_documents (s : Session)
        (documents : list Py.str) (batch_size : Z) :
  documents_indexed (index_documents s documents batch_size).1
  = length documents.
Proof.
  unfold Engine.index_documents.
  pose proof (process_batches_documents (batches batch_size documents)
                                        (s, no_stats)) as H.
  rewrite batches_concat in H.
  destruct (foldl _ _ (batches batch_size documents)) as [s1 st].
  simpl in *. exact H.
Qed.

(** ** Merging entities *)

Lemma entities_with_graph s m rels next :
  entities (with_graph s m rels next) = m.
Proof. reflexivity. Qed.

Lemma merge_entity_step unit s x v :
  step_ok [x] s (merge_entity unit s (x, v)).
Proof.
  unfold Engine.merge_entity.
  destruct (entities s !! extracted_key x) as [e|] eqn:Hlook;
    unfold Engine.step_ok; rewrite entities_with_graph.
  - split; [repeat split |]. split; [split |].
    + intros k. rewrite fmap_cons, fmap_nil, list_elem_of_singleton.
      destruct (decide (k = extracted_key x)) as [-> | Hne].
      * rewrite lookup_insert_eq, Hlook. split; eauto.
      * rewrite lookup_insert_ne by congruence. tauto.
    + intros k e0 He0. unfold under. rewrite filter_cons.
      destruct (decide (extracted_key x = k)) as [<- | Hne].
      * rewrite lookup_insert_eq. eexists. split; [reflexivity |].
        rewrite Hlook in He0. injection He0 as <-. simpl.
        split_and!; [reflexivity .. | lia | reflexivity].
      * rewrite lookup_insert_ne by assumption. exists e0.
        rewrite filter_nil. simpl.
        split_and!; auto with lia.
    + intros Hk k e0. simpl.
      destruct (decide (extracted_key x = k)) as [<- | Hne].
      * rewrite lookup_insert_eq. intros [= <-].
        unfold entity_key. simpl. exact (Hk _ _ Hlook).
      * rewrite lookup_insert_ne by assumption. apply Hk.
  - split; [repeat split |]. split; [split |].
    + intros k. rewrite fmap_cons, fmap_nil, list_elem_of_singleton.
      destruct (decide (k = extracted_key x)) as [-> | Hne].
      * rewrite lookup_insert_eq. split; eauto.
      * rewrite lookup_insert_ne by congruence. tauto.
    + intros k e0 He0. unfold under. rewrite filter_cons.
      destruct (decide (extracted_key x = k)) as [<- | Hne]; [congruence |].
      rewrite lookup_insert_ne by assumption. exists e0.
      rewrite filter_nil. simpl.
      split_and!; auto with lia.
    + intros Hk k e0. simpl.
      destruct (decide (extracted_key x = k)) as [<- | Hne].
      * rewrite lookup_insert_eq. intros [= <-]. reflexivity.
      * rewrite lookup_insert_ne by assumption. apply Hk.
Qed.

Lemma merge_entities_step unit xs :
  forall s, step_ok xs.*1 s (foldl (merge_entity unit) s xs).
Proof.
  induction xs as [|[x v] xs IH]; intros s.
  - apply step_ok_refl.
  - change (step_ok ([x] ++ xs.*1) s
              (foldl (merge_entity unit) (merge_entity unit s (x, v)) xs)).
    eapply step_ok_trans; [apply merge_entity_step | apply IH].
Qed.

Lemma merge_relationship_frame s r :
  same_setup s (merge_relationship s r).1
  /\ entities (merge_relationship s r).1 = entities s.
Proof.
  unfold Engine.merge_relationship.
  destruct (resolve _ _) as [a|]; [| repeat split].
  destruct (resolve _ _) as [b|]; [| repeat split].
  destruct (a =? b)%nat; repeat split.
Qed.

Lemma merge_relationships_step rels :
  forall (a : Session * nat),
    step_ok [] a.1
      (foldl (fun (a : Session * nat) r =>
                let '(s', bad) := merge_relationship a.1 r in
                (s', if bad then S a.2 else a.2)) a rels).1.
Proof.
  induction rels as [|r rels IH]; intros a.
  - apply step_ok_refl.
  - cbn [foldl].
    change (@nil CI.ExtractedEntity) with (@nil CI.ExtractedEntity ++ []).
    eapply step_ok_trans; [| apply IH].
    destruct (merge_relationship_frame a.1 r) as [Hs He].
    destruct (merge_relationship a.1 r) as [s' bad]. cbn [fst] in *.
    now apply step_ok_frame.
Qed.


Lemma prepare_same_setup s s' content :
  same_setup s s' -> prepare s' content = prepare s content.
Proof. intros (He & Hm & _). unfold prepare. now rewrite He, Hm. Qed.

Lemma unit_mentions_same_setup s s' content :
  same_setup s s' -> unit_mentions s' content = unit_mentions s content.
Proof.
  intros Hs. unfold unit_mentions. now rewrite (prepare_same_setup s s').
Qed.

Lemma mentions_same_setup s s' documents :
  same_setup s s' -> mentions s' documents = mentions s documents.
Proof.
  intros Hs. unfold Engine.mentions.
  destruct Hs as (He & Hm & Hc & Ho) eqn:E. rewrite Hc, Ho.
  apply list_bind_ext; [| reflexivity]. intros document.
  apply list_bind_ext; [| reflexivity]. intros content.
  now apply unit_mentions_same_setup.
Qed.

Lemma process_unit_step doc acc ic :
  step_ok (unit_mentions acc.1 ic.2) acc.1 (process_unit doc acc ic).1.
Proof.
  destruct acc as [s st], ic as [index content].
  unfold Engine.process_unit, unit_mentions. cbn [fst snd].
  destruct (prepare s content) as [[[v ents] rels]|]; [| apply step_ok_refl].
  match goal with
  | |- context [foldl ?f (?s2, 0%nat) rels] =>
      pose proof (merge_relationships_step rels (s2, 0%nat)) as Hrels;
      destruct (foldl f (s2, 0%nat) rels) as [s3 rejected]
  end.
  cbn [fst] in *.
  rewrite <- (app_nil_r ents.*1), <- (app_nil_l (ents.*1 ++ [])).
  eapply (step_ok_trans [] _ s
            (add_text_unit s (mkTextUnit (length (text_units s)) doc index
                                         content v)));
    [apply step_ok_frame; repeat split |].
  eapply step_ok_trans; [apply merge_entities_step | exact Hrels].
Qed.

Lemma process_units_step doc units :
  forall acc,
    step_ok (units.*2 ≫= unit_mentions acc.1) acc.1
            (foldl (process_unit doc) acc units).1.
Proof.
  induction units as [|u units IH]; intros acc.
  - apply step_ok_refl.
  - cbn [foldl]. rewrite fmap_cons, bind_cons.
    pose proof (process_unit_step doc acc u) as Hu.
    eapply step_ok_trans; [exact Hu |].
    rewrite (list_bind_ext _ (unit_mentions (process_unit doc acc u).1)
                           units.*2 units.*2); [apply IH | | reflexivity].
    intros content. symmetry. apply unit_mentions_same_setup, Hu.
Qed.

Lemma mentions_singleton s document :
  mentions s [document]
  = chunker (sess_chunk_size s) (sess_chunk_overlap s) document
      ≫= unit_mentions s.
Proof. unfold Engine.mentions. rewrite bind_cons. apply app_nil_r. Qed.

Lemma process_document_step acc document :
  step_ok (mentions acc.1 [document]) acc.1 (process_document acc document).1.
Proof.
  destruct acc as [s st]. rewrite mentions_singleton.
  unfold Engine.process_document. cbn [fst].
  set (chunks := chunker (sess_chunk_size s) (sess_chunk_overlap s) document).
  pose proof (process_units_step (next_document s)
                (zip (seq 0 (length chunks)) chunks) (s, st)) as Hu.
  rewrite snd_zip in Hu by (rewrite length_seq; lia).
  destruct (foldl _ _ (zip (seq 0 (length chunks)) chunks)) as [s' st'].
  cbn [fst] in *.
  rewrite <- (app_nil_r (chunks ≫= _)).
  eapply step_ok_trans; [exact Hu |].
  apply step_ok_frame; repeat split.
Qed.

Lemma mentions_app s docs1 docs2 :
  mentions s (docs1 ++ docs2) = mentions s docs1 ++ mentions s docs2.
Proof. unfold Engine.mentions. apply bind_app. Qed.

Lemma process_documents_step documents :
  forall acc,
    step_ok (mentions acc.1 documents) acc.1
            (foldl process_document acc documents).1.
Proof.
  induction documents as [|d documents IH]; intros acc.
  - apply step_ok_refl.
  - cbn [foldl].
    change (d :: documents) with ([d] ++ documents). rewrite mentions_app.
    pose proof (process_document_step acc d) as Hd.
    eapply step_ok_trans; [exact Hd |].
    rewrite <- (mentions_same_setup acc.1 (process_document acc d).1)
      by apply Hd.
    apply IH.
Qed.

Lemma process_batches_flat bs :
  forall acc,
    foldl process_batch acc bs = foldl process_document acc (concat bs).
Proof.
  induction bs as [|b bs IH]; intros acc; [reflexivity |].
  cbn [foldl concat]. rewrite foldl_app. apply IH.
Qed.

(** Indexing merges the entities extracted from the documents, whatever the
    batch size. *)
Lemma index_documents_step s documents batch_size :
  step_ok (mentions s documents) s (index_documents s documents batch_size).2.
Proof.
  unfold Engine.index_documents.
  rewrite process_batches_flat, batches_concat.
  pose proof (process_documents_step documents (s, no_stats)) as Hd.
  destruct (foldl process_document (s, no_stats) documents) as [s1 st].
  cbn [fst snd] in *.
  rewrite <- (app_nil_r (mentions s documents)).
  eapply step_ok_trans; [exact Hd |].
  apply step_ok_frame; destruct (sess_auto_detect s1); repeat split.
Qed.

Lemma reachable_keyed s : reachable s -> keyed (entities s).
Proof.
  induction 1 as [cfg env_key s Hinit | s documents batch_size _ IH].
  - assert (entities s = ∅) as ->.
    { unfold GibRAMIndexer_init in Hinit.
      repeat match type of Hinit with
             | context [if ?b then _ else _] => destruct b; [discriminate |]
             end.
      destruct (credential cfg env_key);
        [| destruct (extractor cfg), (embedder cfg); try discriminate];
        now injection Hinit as <-. }
    intros k e. now rewrite lookup_empty.
  - now apply (index_documents_step s documents batch_size).
Qed.

Lemma keyed_keys (m : gmap (Py.str * Py.str) Entity) :
  keyed m -> entity_key <$> (map_to_list m).*2 = (map_to_list m).*1.
Proof.
  intros Hk.
  assert (Hall : Forall (fun p => entity_key p.2 = p.1) (map_to_list m)).
  { apply Forall_forall. intros [k e] Hin. apply Hk.
    now apply elem_of_map_to_list. }
  induction Hall as [|p l Hp _ IH]; [reflexivity |].
  rewrite !fmap_cons, Hp. f_equal. exact IH.
Qed.

Lemma keyed_NoDup s :
  keyed (entities s) -> NoDup (entity_key <$> all_entities s).
Proof.
  intros Hk. unfold all_entities. rewrite keyed_keys by assumption.
  apply NoDup_fst_map_to_list.
Qed.

Lemma grows_same_size ms m1 m2 :
  (forall x, x ∈ ms -> is_Some (m1 !! extracted_key x)) ->
  grows ms m1 m2 -> size m2 = size m1.
Proof.
  intros Hin [Hdom _].
  rewrite <- !size_dom. f_equal. apply set_eq. intros k.
  rewrite !elem_of_dom, Hdom. split; [| tauto].
  intros [H | H]; [assumption |].
  apply list_elem_of_fmap in H. destruct H as (x & -> & Hx). now apply Hin.
Qed.

(** C8: in a session there is one Entity per key [(normalize(title),
    type)]; indexing the same documents a second time creates no Entity:
    each one keeps its id, its occurrence count grows by the number of
    extractions under its key, and their descriptions are appended to its
    evidence: the evidence is the old one followed by the new descriptions,
    cut at the bound from the oldest end, so that the newest description is
    always its last piece and nothing is lost while the bound is not
    reached. *)
Theorem entities_unique_and_accumulate (s : Session) :
  reachable s ->
  NoDup (entity_key <$> all_entities s)
  /\ forall documents batch_size batch_size',
      let s1 := (index_documents s documents batch_size).2 in
      let s2 := (index_documents s1 documents batch_size').2 in
      NoDup (entity_key <$> all_entities s2)
      /\ length (all_entities s2) = length (all_entities s1)
      /\ (forall x, x ∈ mentions s documents ->
                    is_Some (entities s1 !! extracted_key x))
      /\ forall k e1,
          entities s1 !! k = Some e1 ->
          exists e2,
            entities s2 !! k = Some e2
            /\ ent_id e2 = ent_id e1
            /\ ent_count e2
               = (ent_count e1 + length (under k (mentions s documents)))%nat
            /\ (k ∈ extracted_key <$> mentions s documents ->
                (ent_count e1 < ent_count e2)%nat)
            /\ let news := CI.description <$> under k (mentions s documents) in
               ent_evidence e2 = accumulate bound (ent_evidence e1) news
               /\ (news <> [] -> last (ent_evidence e2) = last news)
               /\ ((length (ent_evidence e1) + length news <= bound)%nat ->
                   ent_evidence e2 = ent_evidence e1 ++ news).
Proof.
  intros Hreach.
  split; [apply keyed_NoDup, reachable_keyed, Hreach |].
  intros documents batch_size batch_size' s1 s2.
  pose proof (index_documents_step s documents batch_size) as (Hs1 & Hg1 & Hk1).
  pose proof (index_documents_step s1 documents batch_size') as (Hs2 & Hg2 & Hk2).
  fold s1 in Hs1, Hg1, Hk1. fold s2 in Hs2, Hg2, Hk2.
  rewrite (mentions_same_setup s s1) in Hg2 by assumption.
  assert (Hpresent : forall x, x ∈ mentions s documents ->
                               is_Some (entities s1 !! extracted_key x)).
  { intros x Hx. apply Hg1. right. now apply list_elem_of_fmap_2. }
  split; [apply keyed_NoDup, Hk2, Hk1, reachable_keyed, Hreach |].
  split.
  { unfold all_entities. rewrite !length_fmap, !length_map_to_list.
    eapply grows_same_size; eassumption. }
  split; [exact Hpresent |].
  intros k e1 He1.
  destruct (proj2 Hg2 k e1 He1) as (e2 & He2 & Hid & _ & _ & Hcount & Hev).
  exists e2. split; [assumption |]. split; [assumption |].
  split; [assumption |]. split.
  { intros Hk. rewrite Hcount.
    apply list_elem_of_fmap in Hk. destruct Hk as (x & -> & Hx).
    assert (x ∈ under (extracted_key x) (mentions s documents)) as Hu
      by (apply list_elem_of_filter; split; [reflexivity | assumption]).
    destruct (under (extracted_key x) (mentions s documents));
      [now apply elem_of_nil in Hu | simpl; lia]. }
  intros news. split; [exact Hev |]. split.
  - intros Hne. rewrite Hev. apply last_accumulate; [| assumption].
    unfold evidence_bound. lia.
  - intros Hfit. rewrite Hev. now apply accumulate_fits.
Qed.

End Indexing.

(** The examples below run on the ASCII part of the Unicode database. *)
#[local] Existing Instance ascii_normalization.

Lemma init_rejects_invalid_configuration_witness :
  let cfg := mkConfig (Py.lit "test-error") 1000 200 true None None None in
  (session_id cfg = []
   \/ (uses_default cfg = true /\ credential cfg None = None)
   \/ chunk_size cfg <= chunk_overlap cfg)
  /\ GibRAMIndexer_init Demo.no_extractor Demo.no_embedder cfg None
     = Failed ConfigurationError.
Proof.
  intros cfg.
  assert (H : session_id cfg = []
              \/ (uses_default cfg = true /\ credential cfg None = None)
              \/ chunk_size cfg <= chunk_overlap cfg)
    by (right; left; split; reflexivity).
  exact (conj H (init_rejects_invalid_configuration
                   Demo.no_extractor Demo.no_embedder cfg None H)).
Defined.

Lemma demo_session_reachable :
  reachable Demo.whole_document Demo.no_extractor Demo.no_embedder
            Demo.no_detector 8 1 Demo.float_value Demo.session.
Proof. now apply (reachable_init _ _ _ _ _ _ _ Demo.config None). Qed.

Lemma entities_unique_and_accumulate_witness :
  let index :=
    index_documents Demo.whole_document Demo.no_detector 8 1
                    Demo.float_value in
  let s1 := (index Demo.session Demo.documents 10).2 in
  let s2 := (index s1 Demo.documents 2).2 in
  let k := (Py.lit "albert einstein", Py.lit "Person") in
  let d := Py.lit "Person mentioned: Albert Einstein" in
  reachable Demo.whole_document Demo.no_extractor Demo.no_embedder
            Demo.no_detector 8 1 Demo.float_value Demo.session
  /\ NoDup (entity_key <$> all_entities s2)
  /\ length (all_entities s2) = length (all_entities s1)
  /\ exists e1 e2,
       entities s1 !! k = Some e1 /\ entities s2 !! k = Some e2
       /\ ent_id e2 = ent_id e1
       /\ ent_count e1 = 1%nat /\ ent_count e2 = 2%nat
       /\ ent_evidence e1 = [d] /\ ent_evidence e2 = [d; d].
Proof.
  intros index s1 s2 k d.
  pose proof (entities_unique_and_accumulate
                Demo.whole_document Demo.no_extractor Demo.no_embedder
                Demo.no_detector 8 1 Demo.float_value Demo.session
                demo_session_reachable) as [_ H].
  destruct (H Demo.documents 10 2) as (Hnd & Hlen & _ & Hacc).
  fold index s1 s2 in Hnd, Hlen, Hacc.
  assert (Hc1 : ent_count <$> (entities s1 !! k) = Some 1%nat)
    by (vm_compute; reflexivity).
  assert (Hv1 : ent_evidence <$> (entities s1 !! k) = Some [d])
    by (vm_compute; reflexivity).
  assert (Hnews : CI.description
                    <$> under k (mentions Demo.whole_document Demo.session
                                          Demo.documents) = [d])
    by (vm_compute; reflexivity).
  destruct (entities s1 !! k) as [e1|] eqn:He1; [| discriminate].
  injection Hc1 as Hc1. injection Hv1 as Hv1.
  destruct (Hacc k e1 He1) as (e2 & He2 & Hid & Hcount & _ & _ & _ & Hfit).
  rewrite Hnews, Hv1 in Hfit.
  apply (f_equal length) in Hnews. rewrite length_fmap in Hnews.
  rewrite Hnews, Hc1 in Hcount.
  split; [exact demo_session_reachable |].
  split; [exact Hnd |]. split; [exact Hlen |].
  exists e1, e2.
  split; [reflexivity |]. split; [exact He2 |]. split; [exact Hid |].
  split; [exact Hc1 |]. split; [exact Hcount |]. split; [exact Hv1 |].
  apply Hfit. vm_compute. lia.
Defined.

(** ** Facets *)

Lemma facet_disabled {A} (embedding : A -> vector) (before : relation (Scored A))
      `{forall a b, Decision (before a b)} q k items :
  facet false embedding before q k items = ([], 0%nat).
Proof. reflexivity. Qed.

(** C6: in a result of [query], a facet whose flag is off is empty, and no
    similarity was computed for it. *)
Theorem query_disabled_facet_empty (s : Session) (text : Py.str) (top_k : Z)
        (include_entities include_text_units include_communities : bool)
        (r : QueryResult) :
  query s text top_k include_entities include_text_units include_communities
  = Done r ->
  (include_entities = false -> qr_entities r = [] /\ scored_entities r = 0%nat)
  /\ (include_text_units = false ->
      qr_text_units r = [] /\ scored_text_units r = 0%nat)
  /\ (include_communities = false ->
      qr_communities r = [] /\ scored_communities r = 0%nat).
Proof.
  unfold query.
  destruct (top_k <? 0); [discriminate |].
  destruct (negb _); [intros [= <-]; repeat split; reflexivity |].
  case_bool_decide; [intros [= <-]; repeat split; reflexivity |].
  destruct (sess_embedder s [text]) as [[|q [|q' qs]]|]; try discriminate.
  destruct (facet include_entities _ _ _ _ _) as [es ne] eqn:He.
  destruct (facet include_text_units _ _ _ _ _) as [us nu] eqn:Hu.
  destruct (facet include_communities _ _ _ _ _) as [cs nc] eqn:Hc.
  intros [= <-]. simpl.
  split; [| split]; intros ->; rewrite facet_disabled in *; split; congruence.
Qed.

(** With the text-unit facet off, a session holding two text units returns
    none of them and scores none; with the facet on, both are scored. *)
Lemma query_disabled_facet_empty_witness :
  exists r r',
    length (text_units Demo.small_session) = 2%nat
    /\ query Demo.small_session (Py.lit "artificial intelligence") 5
             true false true = Done r
    /\ qr_text_units r = [] /\ scored_text_units r = 0%nat
    /\ query Demo.small_session (Py.lit "artificial intelligence") 5
             true true true = Done r'
    /\ scored_text_units r' = 2%nat.
Proof.
  eexists. eexists. split; [reflexivity |].
  split; [reflexivity |].
  split;
    [exact (proj1 (proj1 (proj2 (query_disabled_facet_empty
                     Demo.small_session (Py.lit "artificial intelligence") 5
                     true false true _ eq_refl)) eq_refl)) |].
  split;
    [exact (proj2 (proj1 (proj2 (query_disabled_facet_empty
                     Demo.small_session (Py.lit "artificial intelligence") 5
                     true false true _ eq_refl)) eq_refl)) |].
  split; reflexivity.
Defined.

End EngineFacts.

(** * Ranking *)

Module RankingFacts.
Import Engine.

(** ** Cosine similarity *)

Lemma dot_cons x a y b : dot (x :: a) (y :: b) = (x * y + dot a b)%R.
Proof. reflexivity. Qed.

Lemma dot_self_nonneg (a : vector) : (0 <= dot a a)%R.
Proof.
  induction a as [|x a IH]; [unfold dot; simpl; lra |].
  rewrite dot_cons. nra.
Qed.

(** Cauchy-Schwarz, also when the vectors differ in length (the products
    then stop at the shorter one). *)
Lemma cauchy_schwarz (a : vector) :
  forall b : vector, (dot a b * dot a b <= dot a a * dot b b)%R.
Proof.
  induction a as [|x a IH]; intros b.
  - pose proof (dot_self_nonneg b). unfold dot at 1 2 3. simpl. lra.
  - destruct b as [|y b].
    + unfold dot at 1 2 4. simpl. lra.
    + rewrite !dot_cons.
      pose proof (IH b) as Hab.
      pose proof (dot_self_nonneg a) as Ha.
      pose proof (dot_self_nonneg b) as Hb.
      set (S := dot a b) in *. set (A := dot a a) in *. set (B := dot b b) in *.
      assert (Hk : (2 * (x * y * S) <= x * x * B + y * y * A)%R).
      { set (T := (x * x * B + y * y * A)%R).
        set (U := (2 * (x * y * S))%R).
        assert (HT : (0 <= T)%R) by (unfold T; nra).
        assert (HU : (U * U <= T * T)%R).
        { unfold U, T.
          pose proof (Rle_0_sqr (x * x * B - y * y * A)) as Hsq.
          unfold Rsqr in Hsq.
          assert ((x * y) * (x * y) * (S * S) <= (x * y) * (x * y) * (A * B))%R
            by (apply Rmult_le_compat_l; [nra | lra]).
          nra. }
        destruct (Rle_dec U T); [assumption | nra]. }
      nra.
Qed.

Lemma cosine_bounded (a b : vector) : (-1 <= cosine a b <= 1)%R.
Proof.
  unfold cosine, norm.
  pose proof (cauchy_schwarz a b) as Hcs.
  pose proof (dot_self_nonneg a) as Ha.
  pose proof (dot_self_nonneg b) as Hb.
  pose proof (sqrt_pos (dot a a)) as Hna.
  pose proof (sqrt_pos (dot b b)) as Hnb.
  pose proof (sqrt_sqrt _ Ha) as Hsa.
  pose proof (sqrt_sqrt _ Hb) as Hsb.
  set (P := (sqrt (dot a a) * sqrt (dot b b))%R) in *.
  assert (HP : (0 <= P)%R) by (unfold P; nra).
  assert (HPP : (P * P = dot a a * dot b b)%R) by (unfold P; nra).
  destruct (Req_dec_T P 0) as [-> | Hne].
  - unfold Rdiv. rewrite Rinv_0. lra.
  - assert (0 < P)%R by lra.
    assert (dot a b <= P)%R by nra.
    assert (- P <= dot a b)%R by nra.
    pose proof (Rinv_0_lt_compat P ltac:(assumption)) as Hi.
    pose proof (Rinv_r P Hne) as Hone.
    unfold Rdiv. set (i := (/ P)%R) in *. split; nra.
Qed.

(** ** The rank orders *)

Lemma title_le_total (a : Py.str) :
  forall b, title_le a b = true \/ title_le b a = true.
Proof.
  induction a as [|x a IH]; intros [|y b]; simpl; auto.
  destruct (IH b) as [H | H]; rewrite H;
    destruct (N.ltb_spec x y), (N.ltb_spec y x), (N.eqb_spec x y),
             (N.eqb_spec y x); simpl; auto; lia.
Qed.

Lemma title_le_trans (a : Py.str) :
  forall b c, title_le a b = true -> title_le b c = true -> title_le a c = true.
Proof.
  induction a as [|x a IH]; intros [|y b] [|z c]; simpl; auto; try discriminate.
  intros Hab Hbc.
  apply orb_prop in Hab, Hbc. apply orb_true_iff.
  destruct Hab as [Hab | [Hxy Hab]%andb_prop], Hbc as [Hbc | [Hyz Hbc]%andb_prop].
  - left. lia.
  - left. lia.
  - left. lia.
  - right. apply andb_true_iff. split; [lia |]. eapply IH; eassumption.
Qed.

#[local] Instance entity_before_total : Total entity_before.
Proof.
  intros a b. unfold entity_before.
  destruct (Rtotal_order (score a) (score b)) as [H | [H | H]];
    [right; left; lra | | left; left; lra].
  destruct (lt_eq_lt_dec (ent_count (item a)) (ent_count (item b)))
    as [[Hc | Hc] | Hc].
  - right. right. split; [congruence |]. left. lia.
  - destruct (title_le_total (ent_title (item a)) (ent_title (item b))).
    + left. right. split; [assumption |]. right. split; assumption.
    + right. right. split; [congruence |]. right. split; [congruence | assumption].
  - left. right. split; [assumption |]. left. lia.
Qed.

#[local] Instance entity_before_trans : Transitive entity_before.
Proof.
  intros a b c. unfold entity_before.
  intros [H1 | [E1 H1]] [H2 | [E2 H2]].
  - left. lra.
  - left. lra.
  - left. lra.
  - right. split; [congruence |].
    destruct H1 as [H1 | [C1 T1]], H2 as [H2 | [C2 T2]].
    + left. lia.
    + left. lia.
    + left. lia.
    + right. split; [congruence |]. eapply title_le_trans; eassumption.
Qed.

#[local] Instance unit_before_total : Total unit_before.
Proof.
  intros a b. unfold unit_before.
  destruct (Rtotal_order (score a) (score b)) as [H | [H | H]];
    [right; left; lra | | left; left; lra].
  destruct (le_ge_dec (tu_id (item a)) (tu_id (item b))).
  - left. right. split; [assumption | lia].
  - right. right. split; [congruence | lia].
Qed.

#[local] Instance unit_before_trans : Transitive unit_before.
Proof.
  intros a b c. unfold unit_before.
  intros [H1 | [E1 H1]] [H2 | [E2 H2]].
  - left. lra.
  - left. lra.
  - left. lra.
  - right. split; [congruence | lia].
Qed.

#[local] Instance community_before_total : Total community_before.
Proof. intros a b. unfold community_before. lra. Qed.

#[local] Instance community_before_trans : Transitive community_before.
Proof. intros a b c. unfold community_before. lra. Qed.

(** What a facet returns: ranked, and every score a cosine. *)
Lemma facet_ranked {A} (enabled : bool) (embedding : A -> vector)
      (before : relation (Scored A)) `{forall a b, Decision (before a b)}
      `{!Transitive before, !Total before} q k items :
  StronglySorted before (facet enabled embedding before q k items).1
  /\ Forall (fun x => -1 <= score x <= 1)%R
            (facet enabled embedding before q k items).1.
Proof.
  unfold facet. destruct enabled; simpl; [| split; constructor].
  split.
  - eapply StronglySorted_app_1_l. rewrite take_drop.
    apply StronglySorted_merge_sort; assumption.
  - apply Forall_forall. intros x Hx.
    apply subseteq_take in Hx.
    rewrite merge_sort_Permutation in Hx.
    apply list_elem_of_fmap in Hx. destruct Hx as (y & -> & _).
    simpl. apply cosine_bounded.
Qed.

(** C9: in a result of [query] every score lies in [-1, 1] and each facet
    is in rank order: by falling score, entities with equal scores by
    falling occurrence count and then by title, text units with equal
    scores by id. *)
Theorem query_scores_bounded_and_ranked (s : Session) (text : Py.str)
        (top_k : Z)
        (include_entities include_text_units include_communities : bool)
        (r : QueryResult) :
  query s text top_k include_entities include_text_units include_communities
  = Done r ->
  (Forall (fun x => -1 <= score x <= 1)%R (qr_entities r)
   /\ Forall (fun x => -1 <= score x <= 1)%R (qr_text_units r)
   /\ Forall (fun x => -1 <= score x <= 1)%R (qr_communities r))
  /\ StronglySorted entity_before (qr_entities r)
  /\ StronglySorted unit_before (qr_text_units r)
  /\ StronglySorted community_before (qr_communities r).
Proof.
  unfold query.
  destruct (top_k <? 0); [discriminate |].
  destruct (negb _); [intros [= <-]; simpl; repeat constructor |].
  case_bool_decide; [intros [= <-]; simpl; repeat constructor |].
  destruct (sess_embedder s [text]) as [[|q [|q' qs]]|]; try discriminate.
  pose proof (facet_ranked include_entities ent_embedding entity_before q
                           (Z.to_nat top_k) (all_entities s)) as [He1 He2].
  pose proof (facet_ranked include_text_units tu_embedding unit_before q
                           (Z.to_nat top_k) (text_units s)) as [Hu1 Hu2].
  pose proof (facet_ranked include_communities com_embedding community_before q
                           (Z.to_nat top_k) (communities s)) as [Hc1 Hc2].
  destruct (facet include_entities _ _ _ _ _) as [es ne].
  destruct (facet include_text_units _ _ _ _ _) as [us nu].
  destruct (facet include_communities _ _ _ _ _) as [cs nc].
  intros [= <-]. simpl in *. tauto.
Qed.

Lemma query_scores_bounded_and_ranked_witness :
  exists r,
    query Demo.small_session (Py.lit "Einstein") 5 true true true = Done r
    /\ Forall (fun x => -1 <= score x <= 1)%R (qr_text_units r)
    /\ StronglySorted unit_before (qr_text_units r).
Proof.
  eexists. split; [reflexivity |].
  pose proof (query_scores_bounded_and_ranked
                Demo.small_session (Py.lit "Einstein") 5 true true true
                _ eq_refl) as [(_ & Hu & _) (_ & Hs & _)].
  exact (conj Hu Hs).
Defined.

End RankingFacts.

(** * More on the embedder *)

Module EmbedderMore.
Import CustomImplementation EmbedderForm.

(** ** The digest has 32 bytes *)

Lemma compress_length (h : list Z) (block : Py.bytes) :
  length h = 8%nat -> length (Hashlib.compress h block) = 8%nat.
Proof.
  intros Hh. unfold Hashlib.compress.
  rewrite length_map, length_combine, Hh. reflexivity.
Qed.

Lemma compress_fold_length (bs : list Py.bytes) :
  forall h, length h = 8%nat ->
            length (fold_left Hashlib.compress bs h) = 8%nat.
Proof.
  induction bs as [|b bs IH]; intros h Hh; simpl; [assumption |].
  apply IH, compress_length, Hh.
Qed.

Lemma word_bytes_flat_length (ws : list Z) :
  length (flat_map Hashlib.word_bytes ws) = (4 * length ws)%nat.
Proof.
  induction ws as [|w ws IH]; [reflexivity |].
  cbn [flat_map]. rewrite length_app, IH. simpl. lia.
Qed.

Lemma sha256_digest_length (msg : Py.bytes) :
  length (Hashlib.sha256_digest msg) = 32%nat.
Proof.
  unfold Hashlib.sha256_digest.
  rewrite word_bytes_flat_length, compress_fold_length; reflexivity.
Qed.

(** ** The loops in closed form *)

Lemma chunk_loop_map (hash_bytes : Py.bytes) (idx : list Z) :
  forall vec0 : list Py.float,
    fold_left
      (fun (acc : Py.result (list Py.float)) i =>
         vec ← acc;
         let chunk := Py.ljust 4 0 (Py.slice i 4 hash_bytes) in
         value ← Struct.unpack_f chunk;
         mret (vec ++ [value]))
      idx (Py.Ok vec0)
    = Py.Ok (vec0 ++ map (float_at hash_bytes) idx).
Proof.
  induction idx as [|i idx IH]; intros vec0; simpl.
  - now rewrite app_nil_r.
  - unfold float_at at 1.
    destruct (EmbedderFacts.unpack_f_total
                _ (EmbedderFacts.ljust_slice_length i hash_bytes))
      as [value ->].
    simpl. rewrite IH, <- app_assoc. reflexivity.
Qed.

Lemma range_step_4 (stop : Z) :
  Py.range_step stop 4
  = map (fun k => 4 * Z.of_nat k) (seq 0 (Z.to_nat ((stop + 3) / 4))).
Proof.
  unfold Py.range_step.
  now replace (stop + 4 - 1) with (stop + 3) by lia.
Qed.

Lemma hash_floats_take (dims : Z) (hash_bytes : Py.bytes) :
  length hash_bytes = 32%nat -> 0 <= dims ->
  hash_floats dims hash_bytes
  = Py.Ok (take (Z.to_nat dims) (digest_floats hash_bytes)).
Proof.
  intros Hlen Hd. unfold hash_floats.
  rewrite chunk_loop_map, range_step_4, Hlen. simpl app.
  f_equal. unfold digest_floats. rewrite map_map.
  change (map ?f ?l) with (f <$> l). rewrite <- fmap_take. f_equal.
  assert (Hn : Z.to_nat ((Z.min (Z.of_nat 32) (dims * 4) + 3) / 4)
               = Nat.min (Z.to_nat dims) 8).
  { destruct (Z.le_gt_cases 8 dims).
    - rewrite Z.min_l by lia. change ((Z.of_nat 32 + 3) / 4) with 8. lia.
    - rewrite Z.min_r by lia.
      replace (dims * 4 + 3) with (3 + dims * 4) by lia.
      rewrite Z.div_add by lia. change (3 / 4) with 0. lia. }
  rewrite Hn.
  destruct (Nat.le_gt_cases (Z.to_nat dims) 8) as [Hle | Hgt].
  - rewrite Nat.min_l by assumption.
    generalize (Z.to_nat dims) Hle. clear.
    intros n Hn. do 9 (destruct n as [|n]; [reflexivity |]). lia.
  - rewrite Nat.min_r by lia. rewrite take_ge; [reflexivity |].
    rewrite length_seq. lia.
Qed.

Lemma pad_loop_replicate (n : nat) (dims : Z) :
  forall vec : list Py.float,
    pad_loop n dims vec
    = vec ++ replicate (Nat.min n (Z.to_nat (dims - Z.of_nat (length vec))))
                       Py.float_0_0.
Proof.
  induction n as [|n IH]; intros vec; simpl.
  - now rewrite app_nil_r.
  - destruct (Z.ltb_spec (Z.of_nat (length vec)) dims) as [Hlt | Hge].
    + rewrite IH, length_app, <- app_assoc. simpl. f_equal.
      replace (Z.to_nat (dims - Z.of_nat (length vec)))
        with (S (Z.to_nat (dims - Z.of_nat (length vec + 1)))) by lia.
      reflexivity.
    + replace (Z.to_nat (dims - Z.of_nat (length vec))) with 0%nat by lia.
      simpl. now rewrite app_nil_r.
Qed.

(** The vector of a text: the digest's floats followed by zeros, cut at
    [dimensions]. *)
Lemma embed_text_closed (dims : Z) (text : Py.str) (encoded : Py.bytes) :
  0 <= dims ->
  Py.encode text = Py.Ok encoded ->
  embed_text dims text
  = Py.Ok (take (Z.to_nat dims)
                (digest_floats (Hashlib.sha256_digest encoded)
                 ++ replicate (Z.to_nat dims) Py.float_0_0)).
Proof.
  intros Hd Henc. unfold embed_text. rewrite Henc.
  unfold mbind, Py.result_bind, Py.bind.
  rewrite hash_floats_take; [| apply sha256_digest_length | exact Hd].
  unfold mret, Py.result_ret. f_equal.
  set (F := digest_floats (Hashlib.sha256_digest encoded)).
  assert (HF : length F = 8%nat) by reflexivity.
  rewrite pad_loop_replicate, length_take, HF.
  rewrite EmbedderFacts.slice_to_exact.
  - destruct (Nat.le_gt_cases (Z.to_nat dims) 8) as [Hle | Hgt].
    + rewrite (Nat.min_l (Z.to_nat dims) 8) by lia.
      replace (Nat.min (Z.to_nat dims)
                       (Z.to_nat (dims - Z.of_nat (Z.to_nat dims))))
        with 0%nat by lia.
      cbn [replicate]. rewrite app_nil_r.
      rewrite take_app_le by (rewrite HF; lia). reflexivity.
    + rewrite (Nat.min_r (Z.to_nat dims) 8) by lia.
      rewrite (take_ge F) by (rewrite HF; lia).
      rewrite take_app_ge by (rewrite HF; lia). rewrite HF.
      rewrite take_replicate. do 2 f_equal. lia.
  - rewrite length_app, length_take, length_replicate, HF. lia.
Qed.


(** ** When [embed] raises *)

Lemma encode_char_None (c : Py.char) :
  Py.encodable_char c = false -> Py.encode_char c = None.
Proof.
  unfold Py.encodable_char, Py.encode_char. intros H.
  repeat match goal with
         | |- context [if ?b then _ else _] => destruct b eqn:?
         end; try reflexivity; lia.
Qed.

Lemma encode_unencodable (s : Py.str) :
  Py.encodable s = false -> Py.encode s = Py.Raise Py.UnicodeEncodeError.
Proof.
  unfold Py.encode, Py.encodable.
  induction s as [|c s IH]; simpl; [discriminate |].
  intros H. apply andb_false_iff in H. destruct H as [Hc | Hs].
  - now rewrite (encode_char_None c Hc).
  - specialize (IH Hs). destruct (Py.encode_opt s); [discriminate |].
    now destruct (Py.encode_char c).
Qed.

Lemma embed_text_outcome (dims : Z) (text : Py.str) :
  if Py.encodable text
  then exists vec, embed_text dims text = Py.Ok vec
  else embed_text dims text = Py.Raise Py.UnicodeEncodeError.
Proof.
  destruct (Py.encodable text) eqn:He.
  - now apply EmbedderFacts.embed_text_total.
  - unfold embed_text. now rewrite (encode_unencodable text He).
Qed.

(** X1: [embed] returns exactly when every text can be encoded; otherwise it
    raises, and what it raises is UnicodeEncodeError (never a struct or
    index error). *)
Theorem embed_raises_only_unencodable (self : DummyEmbedder)
        (texts : list Py.str) :
  match (embed texts self).1 with
  | Py.Ok vs => Forall (fun t => Py.encodable t = true) texts
  | Py.Raise e =>
      e = Py.UnicodeEncodeError
      /\ Exists (fun t => Py.encodable t = false) texts
  end.
Proof.
  destruct (EmbedderFacts.embed_spec texts self)
    as [(vs & -> & Hall) | (e & t & -> & Hin & Ht)]; cbn [fst].
  - apply Forall_forall. intros t Hin.
    apply list_elem_of_lookup in Hin. destruct Hin as [i Hi].
    destruct (Forall2_lookup_l _ _ _ _ _ Hall Hi) as (v & _ & Hv).
    pose proof (embed_text_outcome (dimensions self) t) as Ho.
    destruct (Py.encodable t); [reflexivity | congruence].
  - pose proof (embed_text_outcome (dimensions self) t) as Ho.
    destruct (Py.encodable t) eqn:He.
    + destruct Ho as [vec Ho]. congruence.
    + split; [congruence |]. apply Exists_exists. eauto.
Qed.

Lemma embed_single_run (text : Py.str) (self : DummyEmbedder) :
  embed_single text self = (embed_text (dimensions self) text, self).
Proof.
  unfold embed_single, mbind, method_bind.
  rewrite EmbedderFacts.embed_singleton.
  destruct (embed_text (dimensions self) text); reflexivity.
Qed.

(** X2: [embed_single] raises only UnicodeEncodeError, and only for a text
    that cannot be encoded; for any other text and a non-negative
    [dimensions] it returns a vector of that length. *)
Theorem embed_single_outcome (self : DummyEmbedder) (text : Py.str) :
  match (embed_single text self).1 with
  | Py.Ok v =>
      Py.encodable text = true
      /\ (0 <= dimensions self -> Z.of_nat (length v) = dimensions self)
  | Py.Raise e => e = Py.UnicodeEncodeError /\ Py.encodable text = false
  end.
Proof.
  rewrite embed_single_run. cbn [fst].
  pose proof (embed_text_outcome (dimensions self) text) as Ho.
  destruct (embed_text (dimensions self) text) as [v|e] eqn:Hv.
  - destruct (Py.encodable text); [| discriminate].
    split; [reflexivity |]. intros Hd.
    eapply EmbedderFacts.embed_text_length; eassumption.
  - destruct (Py.encodable text); [destruct Ho; discriminate |].
    split; congruence.
Qed.

(** ** Batches compose *)

Lemma embed_loop_acc (texts : list Py.str) :
  forall (acc : list (list Py.float)) (self : DummyEmbedder),
    embed_loop texts acc self
    = match embed_loop texts [] self with
      | (Py.Ok vs, self') => (Py.Ok (acc ++ vs), self')
      | (Py.Raise e, self') => (Py.Raise e, self')
      end.
Proof.
  induction texts as [|t texts IH]; intros acc self.
  - cbn [embed_loop]. unfold mret, method_ret. now rewrite app_nil_r.
  - cbn [embed_loop]. unfold mbind, method_bind, attr, lift.
    destruct (embed_text (dimensions self) t) as [v|e]; [| reflexivity].
    rewrite (IH (acc ++ [v])), (IH ([] ++ [v])).
    destruct (embed_loop texts [] self) as [[vs|e] self'];
      [| reflexivity].
    now rewrite <- app_assoc.
Qed.

Lemma embed_loop_app (a b : list Py.str) :
  forall (acc : list (list Py.float)) (self : DummyEmbedder),
    embed_loop (a ++ b) acc self
    = match embed_loop a acc self with
      | (Py.Ok acc', self') => embed_loop b acc' self'
      | (Py.Raise e, self') => (Py.Raise e, self')
      end.
Proof.
  induction a as [|t a IH]; intros acc self.
  - reflexivity.
  - cbn [embed_loop app]. unfold mbind, method_bind, attr, lift.
    destruct (embed_text (dimensions self) t) as [v|e]; [| reflexivity].
    apply IH.
Qed.

(** X3: embedding two batches one after the other gives what embedding
    their concatenation gives: the vectors of the first followed by those of
    the second, or the first exception met. *)
Theorem embed_app (self : DummyEmbedder) (a b : list Py.str) :
  (embed (a ++ b) self).1
  = match (embed a self).1, (embed b self).1 with
    | Py.Ok va, Py.Ok vb => Py.Ok (va ++ vb)
    | Py.Raise e, _ => Py.Raise e
    | Py.Ok _, Py.Raise e => Py.Raise e
    end.
Proof.
  unfold embed. rewrite embed_loop_app.
  pose proof (EmbedderFacts.embed_self a self) as Hself. unfold embed in Hself.
  destruct (embed_loop a [] self) as [[va|e] self']; cbn [fst snd] in *;
    [| reflexivity].
  subst self'. rewrite embed_loop_acc.
  destruct (embed_loop b [] self) as [[vb|e] self']; reflexivity.
Qed.

(** ** The shape of a vector *)

Lemma embed_text_cases (dims : Z) (text : Py.str) (v : list Py.float) :
  0 <= dims ->
  embed_text dims text = Py.Ok v ->
  exists encoded,
    Py.encode text = Py.Ok encoded
    /\ v = take (Z.to_nat dims)
                (digest_floats (Hashlib.sha256_digest encoded)
                 ++ replicate (Z.to_nat dims) Py.float_0_0).
Proof.
  intros Hd Hv.
  destruct (Py.encode text) as [encoded|e] eqn:Henc.
  - exists encoded. split; [reflexivity |].
    rewrite (embed_text_closed dims text encoded Hd Henc) in Hv.
    now injection Hv as <-.
  - unfold embed_text in Hv. rewrite Henc in Hv. discriminate.
Qed.

(** X4: the vector a text gets at a smaller [dimensions] is the beginning of
    the one it gets at a larger: the dimension only cuts or pads. *)
Theorem embed_single_prefix (text : Py.str) (d d' : Z)
        (v v' : list Py.float) :
  0 <= d <= d' ->
  (embed_single text (mkDummyEmbedder d)).1 = Py.Ok v ->
  (embed_single text (mkDummyEmbedder d')).1 = Py.Ok v' ->
  v = take (Z.to_nat d) v'.
Proof.
  intros Hd. rewrite !embed_single_run. cbn [fst dimensions]. intros Hv Hv'.
  apply embed_text_cases in Hv; [| lia]. apply embed_text_cases in Hv'; [| lia].
  destruct Hv as (enc & Henc & ->), Hv' as (enc' & Henc' & ->).
  assert (enc' = enc) as -> by congruence.
  set (F := digest_floats (Hashlib.sha256_digest enc)).
  rewrite take_take, Nat.min_l by lia.
  replace (Z.to_nat d') with (Z.to_nat d + (Z.to_nat d' - Z.to_nat d))%nat
    at 1 by lia.
  rewrite replicate_add, !app_assoc.
  rewrite (take_app_le _ (replicate (Z.to_nat d' - Z.to_nat d) _));
    [reflexivity |].
  rewrite length_app, length_replicate. lia.
Qed.

(** X5: only the first eight components of a vector come from the text; the
    following ones are all 0.0. *)
Theorem embed_zero_tail (self : DummyEmbedder) (texts : list Py.str)
        (vs : list (list Py.float)) :
  (embed texts self).1 = Py.Ok vs ->
  forall v i,
    v ∈ vs -> (8 <= i)%nat -> Z.of_nat i < dimensions self ->
    v !! i = Some Py.float_0_0.
Proof.
  intros Hvs v i Hv Hi Hd.
  apply EmbedderFacts.embed_Ok_inv in Hvs.
  apply list_elem_of_lookup in Hv. destruct Hv as [j Hj].
  destruct (Forall2_lookup_r _ _ _ _ _ Hvs Hj) as (t & _ & Ht).
  apply embed_text_cases in Ht; [| lia].
  destruct Ht as (enc & _ & ->).
  rewrite lookup_take_lt by lia.
  rewrite lookup_app_r by (change (length (digest_floats _)) with 8%nat; lia).
  change (length (digest_floats _)) with 8%nat.
  apply lookup_replicate_2. lia.
Qed.

(** X6: with a [dimensions] of zero or less [embed] returns one vector per
    text, and every vector is empty. *)
Theorem embed_nonpositive_dimensions (self : DummyEmbedder)
        (texts : list Py.str) (vs : list (list Py.float)) :
  dimensions self <= 0 ->
  (embed texts self).1 = Py.Ok vs ->
  length vs = length texts /\ Forall (fun v => v = []) vs.
Proof.
  intros Hd Hvs. apply EmbedderFacts.embed_Ok_inv in Hvs.
  split; [symmetry; exact (Forall2_length _ _ _ Hvs) |].
  apply Forall_forall. intros v Hv.
  apply list_elem_of_lookup in Hv. destruct Hv as [j Hj].
  destruct (Forall2_lookup_r _ _ _ _ _ Hvs Hj) as (t & _ & Ht).
  unfold embed_text in Ht.
  destruct (Py.encode t) as [enc|e]; [| discriminate].
  unfold mbind, Py.result_bind, Py.bind in Ht.
  destruct (EmbedderFacts.hash_floats_ok (dimensions self)
              (Hashlib.sha256_digest enc)) as (vec & Hvec & Hle & Hneg).
  rewrite Hvec in Ht. injection Ht as <-.
  assert (vec = []) as ->.
  { destruct (Z.eq_dec (dimensions self) 0) as [H0 | Hne].
    - apply length_zero_iff_nil. specialize (Hle ltac:(lia)). lia.
    - apply Hneg. lia. }
  replace (Z.to_nat (dimensions self)) with 0%nat by lia.
  cbn [pad_loop]. unfold Py.slice_to.
  destruct (dimensions self <? 0); apply firstn_nil.
Qed.

(** X7: a vector is not always made of numbers: the text ["61"] gets a NaN
    as its third component. *)
Theorem embed_may_return_nan :
  exists text v,
    Py.encodable text = true
    /\ (embed_single text (DummyEmbedder_init None)).1 = Py.Ok v
    /\ S754_nan ∈ v.
Proof.
  exists (Py.lit "61").
  destruct (embed_single (Py.lit "61") (DummyEmbedder_init None)).1
    as [v|e] eqn:Hv; [| vm_compute in Hv; discriminate].
  exists v. split; [reflexivity |]. split; [reflexivity |].
  apply list_elem_of_lookup. exists 2%nat.
  vm_compute in Hv. injection Hv as <-. reflexivity.
Qed.

Lemma embed_single_prefix_witness :
  exists v v',
    0 <= 2 <= 10
    /\ (embed_single (Py.lit "Einstein") (mkDummyEmbedder 2)).1 = Py.Ok v
    /\ (embed_single (Py.lit "Einstein") (mkDummyEmbedder 10)).1 = Py.Ok v'
    /\ v = take (Z.to_nat 2) v'.
Proof.
  destruct (embed_single (Py.lit "Einstein") (mkDummyEmbedder 2)).1
    as [v|e] eqn:Hv; [| vm_compute in Hv; discriminate].
  destruct (embed_single (Py.lit "Einstein") (mkDummyEmbedder 10)).1
    as [v'|e] eqn:Hv'; [| vm_compute in Hv'; discriminate].
  assert (H : 0 <= 2 <= 10) by lia.
  exists v, v'.
  exact (conj H (conj eq_refl (conj eq_refl
           (embed_single_prefix (Py.lit "Einstein") 2 10 v v' H Hv Hv')))).
Defined.

Lemma embed_zero_tail_witness :
  exists vs,
    (embed [Py.lit "Einstein"] (mkDummyEmbedder 10)).1 = Py.Ok vs
    /\ forall v, v ∈ vs -> v !! 9%nat = Some Py.float_0_0.
Proof.
  destruct (embed [Py.lit "Einstein"] (mkDummyEmbedder 10)).1
    as [vs|e] eqn:Hvs; [| vm_compute in Hvs; discriminate].
  exists vs. split; [reflexivity |].
  intros v Hv.
  refine (embed_zero_tail (mkDummyEmbedder 10) [Py.lit "Einstein"] vs Hvs
            v 9%nat Hv _ _); simpl; lia.
Defined.

Lemma embed_nonpositive_dimensions_witness :
  exists vs,
    dimensions (mkDummyEmbedder (-3)) <= 0
    /\ (embed [Py.lit "Python"; Py.lit "Rust"] (mkDummyEmbedder (-3))).1
       = Py.Ok vs
    /\ length vs = length [Py.lit "Python"; Py.lit "Rust"]
    /\ Forall (fun v => v = []) vs.
Proof.
  destruct (embed [Py.lit "Python"; Py.lit "Rust"] (mkDummyEmbedder (-3))).1
    as [vs|e] eqn:Hvs; [| vm_compute in Hvs; discriminate].
  assert (H : dimensions (mkDummyEmbedder (-3)) <= 0) by (simpl; lia).
  exists vs.
  exact (conj H (conj eq_refl
           (embed_nonpositive_dimensions _ _ vs H Hvs))).
Defined.

End EmbedderMore.

(** * What the patterns match *)

(** * What the extractor's patterns match *)

Module PatternFacts.
Import Re Patterns.

Lemma last_or_cons before x u : last_or before (x :: u) = last_or (Some x) u.
Proof.
  unfold last_or. destruct u as [|y u]; [reflexivity |].
  rewrite last_cons_cons. destruct (last (y :: u)) eqn:E; [reflexivity |].
  now apply last_None in E.
Qed.

Lemma last_or_app before u v :
  last_or before (u ++ v) = last_or (last_or before u) v.
Proof.
  revert before. induction u as [|x u IH]; intros before; [reflexivity |].
  simpl app. now rewrite !last_or_cons, IH.
Qed.

Lemma last_or_None u : last_or None u = last u.
Proof. unfold last_or. now destruct (last u). Qed.

Lemma prev_advance u c : prev (advance u c) = last_or (prev c) u.
Proof.
  revert c. induction u as [|x u IH]; intros c; [reflexivity |].
  rewrite last_or_cons. unfold advance in *. simpl. now rewrite IH.
Qed.

Lemma advance_cons x u c : advance (x :: u) c = advance u (step x c).
Proof. reflexivity. Qed.

Section Semantics.
Context {rt : Py.Runtime}.

Lemma m_plus_run cs (k : cont) res :
  forall rest c,
    m_plus cs c rest k = Some res ->
    exists c' rest', run (Plus cs) c rest c' rest' /\ k c' rest' = Some res.
Proof.
  induction rest as [|x rest IH]; intros c; simpl; [discriminate |].
  destruct (in_charset cs x) eqn:Hx; [| discriminate].
  destruct (m_plus cs (step x c) rest k) eqn:Hmore.
  - intros [= ->].
    destruct (IH _ Hmore) as (c' & rest' & (y & u & Hall & -> & ->) & Hk).
    exists (advance (y :: u) (step x c)), rest'. split; [| exact Hk].
    exists x, (y :: u). split; [| split; reflexivity].
    cbn [forallb] in *. now rewrite Hx.
  - intros Hk. exists (step x c), rest. split; [| exact Hk].
    exists x, []. simpl. now rewrite Hx.
Qed.

Lemma m_rep_run cs (k : cont) res :
  forall n rest c,
    m_rep n cs c rest k = Some res ->
    exists c' rest', run (Rep n cs) c rest c' rest' /\ k c' rest' = Some res.
Proof.
  induction n as [|n IH]; intros rest c; simpl.
  - intros Hk. exists c, rest. split; [| exact Hk]. now exists [].
  - destruct rest as [|x rest]; [discriminate |].
    destruct (in_charset cs x) eqn:Hx; [| discriminate].
    intros Hm.
    destruct (IH _ _ Hm) as (c' & rest' & (u & Hlen & Hall & -> & ->) & Hk).
    exists (advance u (step x c)), rest'. split; [| exact Hk].
    exists (x :: u). simpl. rewrite Hx, Hall, Hlen. auto.
Qed.

(** The matcher only succeeds along the structure of the pattern. *)
Lemma m_run (r : regex) :
  forall c rest (k : cont) res,
    m r c rest k = Some res ->
    exists c' rest', run r c rest c' rest' /\ k c' rest' = Some res.
Proof.
  induction r as [cs | r1 IH1 r2 IH2 | r1 IH1 r2 IH2 | cs | n cs | | r IH];
    intros c rest k res.
  - simpl. destruct rest as [|x rest]; [discriminate |].
    destruct (in_charset cs x) eqn:Hx; [| discriminate].
    intros Hk. exists (step x c), rest. split; [| exact Hk]. now exists x.
  - cbn [m]. intros Hm.
    apply IH1 in Hm. destruct Hm as (c1 & rest1 & Hr1 & Hm).
    apply IH2 in Hm. destruct Hm as (c2 & rest2 & Hr2 & Hk).
    exists c2, rest2. split; [| exact Hk]. now exists c1, rest1.
  - cbn [m]. destruct (m r1 c rest k) eqn:H1.
    + intros [= ->]. apply IH1 in H1.
      destruct H1 as (c' & rest' & Hr & Hk). exists c', rest'.
      split; [now left | exact Hk].
    + intros H2. apply IH2 in H2.
      destruct H2 as (c' & rest' & Hr & Hk). exists c', rest'.
      split; [now right | exact Hk].
  - apply m_plus_run.
  - apply m_rep_run.
  - cbn [m]. destruct (at_boundary c rest) eqn:Hb; [| discriminate].
    intros Hk. exists c, rest. split; [| exact Hk]. now split.
  - cbn [m]. intros Hm. apply IH in Hm.
    destruct Hm as (c1 & rest1 & Hr & Hk).
    eexists _, rest1. split; [| exact Hk]. now exists c1.
Qed.

(** A run consumes a stretch of the input and ends just after it. *)
Lemma run_consumes (r : regex) :
  forall c rest c' rest',
    run r c rest c' rest' ->
    exists u, rest = u ++ rest' /\ prev c' = last_or (prev c) u.
Proof.
  induction r as [cs | r1 IH1 r2 IH2 | r1 IH1 r2 IH2 | cs | n cs | | r IH];
    intros c rest c' rest'; cbn [run].
  - intros (x & _ & -> & ->). now exists [x].
  - intros (c1 & rest1 & H1 & H2).
    apply IH1 in H1. apply IH2 in H2.
    destruct H1 as (u1 & -> & Hp1), H2 as (u2 & -> & Hp2).
    exists (u1 ++ u2). rewrite <- app_assoc, last_or_app, <- Hp1.
    split; [reflexivity | exact Hp2].
  - intros [H | H]; [now apply IH1 | now apply IH2].
  - intros (x & u & _ & -> & ->). exists (x :: u).
    split; [reflexivity | apply prev_advance].
  - intros (u & _ & _ & -> & ->). exists u.
    split; [reflexivity | apply prev_advance].
  - intros (_ & -> & ->). now exists [].
  - intros (c1 & H & ->). apply IH in H. exact H.
Qed.

Lemma firstn_consumed (u rest' : Py.str) :
  firstn (length (u ++ rest') - length rest') (u ++ rest') = u.
Proof.
  rewrite length_app.
  replace (length u + length rest' - length rest')%nat with (length u) by lia.
  now rewrite firstn_app, firstn_all, Nat.sub_diag, firstn_0, app_nil_r.
Qed.

(** Both patterns are [\b( g )\b]: the group is the whole match, between
    two word boundaries. *)
Lemma match_here_bounded (g : regex) before s v n :
  match_here (Seq WordB (Seq (Group g) WordB)) before s = Some (v, n) ->
  exists c1 rest',
    s = v ++ rest'
    /\ run g (mkCtx before None) s c1 rest'
    /\ xorb (is_word before) (is_word (head s)) = true
    /\ xorb (is_word (prev c1)) (is_word (head rest')) = true
    /\ n = length v.
Proof.
  unfold match_here.
  destruct (m _ _ s _) as [[c rest]|] eqn:Hm; [| discriminate].
  apply m_run in Hm.
  destruct Hm as (c' & rest' & Hrun & Hk). injection Hk as Ec Er.
  cbn [run] in Hrun.
  destruct Hrun as (c0 & rest0 & (Hb0 & Ec0 & Er0) & c2 & rest2
                       & (c1 & Hg & Ec2) & (Hb1 & Ec' & Er')).
  subst c0 rest0 c' rest' c rest.
  intros [= <- <-].
  destruct (run_consumes _ _ _ _ _ Hg) as (u & Hu & _).
  exists c1, rest2. subst c2 s. cbn [group1 prev] in *.
  rewrite firstn_consumed.
  split; [reflexivity |]. split; [exact Hg |].
  split; [exact Hb0 |]. split; [exact Hb1 |].
  rewrite length_app. lia.
Qed.

(** Every result of [scan] sits in the input and comes from a match there. *)
Lemma scan_occurrence (r : regex) (Q : option Py.char -> Py.str -> Py.str -> Prop) :
  (forall before s g n,
      match_here r before s = Some (g, n) ->
      exists b, s = g ++ b /\ Q before g b) ->
  forall g s before skip,
    g ∈ scan r before skip s ->
    exists a b, s = a ++ g ++ b /\ Q (last_or before a) g b.
Proof.
  intros Hmatch g.
  assert (Hhere : forall before s n,
             match_here r before s = Some (g, n) ->
             exists a b, s = a ++ g ++ b /\ Q (last_or before a) g b).
  { intros before s n Hm. destruct (Hmatch _ _ _ _ Hm) as (b & -> & HQ).
    now exists [], b. }
  assert (Hlater : forall x s before,
             (exists a b, s = a ++ g ++ b /\ Q (last_or (Some x) a) g b) ->
             exists a b, x :: s = a ++ g ++ b /\ Q (last_or before a) g b).
  { intros x s before (a & b & -> & HQ). exists (x :: a), b.
    split; [reflexivity |]. now rewrite last_or_cons. }
  induction s as [|x s IH]; intros before skip; simpl.
  - destruct (match_here r before []) as [[g' n]|] eqn:Hm.
    + intros ->%list_elem_of_singleton. eapply Hhere; eassumption.
    + intros []%elem_of_nil.
  - destruct skip as [|skip].
    + destruct (match_here r before (x :: s)) as [[g' n]|] eqn:Hm.
      * intros [-> | Hin]%elem_of_cons.
        -- eapply Hhere; eassumption.
        -- eapply Hlater, IH; eassumption.
      * intros Hin. eapply Hlater, IH; eassumption.
    + intros Hin. eapply Hlater, IH; eassumption.
Qed.

(** ASCII letters and digits are word characters in every runtime. *)
Lemma is_word_alnum (x : Py.char) :
  Py.ascii_isalnum x = true -> is_word (Some x) = true.
Proof.
  intros H. unfold is_word.
  assert (x < 128)%N by (unfold Py.ascii_isalnum in H; lia).
  rewrite Py.isalnum_ascii by assumption. now rewrite H.
Qed.

Lemma boundary_left before s :
  xorb (is_word before) (is_word (head s)) = true ->
  is_word (head s) = true -> is_word before = false.
Proof. intros H Hs. rewrite Hs in H. now destruct (is_word before). Qed.

Lemma boundary_right o rest :
  xorb (is_word o) (is_word (head rest)) = true ->
  is_word o = true -> is_word (head rest) = false.
Proof. intros H Ho. rewrite Ho in H. now destruct (is_word (head rest)). Qed.


(** What the group of a pattern is, as a property of the matched text. *)
Lemma findall_shape (g : regex) (shape : Py.str -> bool) :
  (forall c s c1 rest',
      run g c s c1 rest' ->
      exists v x y,
        s = v ++ rest' /\ shape v = true
        /\ head v = Some x /\ Py.ascii_isalnum x = true
        /\ last v = Some y /\ Py.ascii_isalnum y = true) ->
  forall text v,
    v ∈ findall (Seq WordB (Seq (Group g) WordB)) text ->
    shape v = true /\ delimited text v.
Proof.
  intros Hg text v Hin. unfold findall in Hin.
  apply (scan_occurrence _
           (fun before v b =>
              shape v = true
              /\ is_word before = false /\ is_word (head b) = false))
    in Hin.
  - destruct Hin as (a & b & -> & Hs & Ha & Hb).
    split; [exact Hs |]. exists a, b. rewrite last_or_None in Ha. auto.
  - intros before s v' n Hm.
    apply match_here_bounded in Hm.
    destruct Hm as (c1 & rest' & -> & Hrun & Hb0 & Hb1 & _).
    pose proof (run_consumes _ _ _ _ _ Hrun) as (u & Hu & Hprev).
    apply Hg in Hrun.
    destruct Hrun as (w & x & y & Hw & Hshape & Hx & Hxa & Hy & Hya).
    apply app_inv_tail in Hw. subst w.
    apply app_inv_tail in Hu. subst u.
    exists rest'. split; [reflexivity |]. split; [exact Hshape |].
    split.
    + apply (boundary_left _ _ Hb0).
      destruct v' as [|z v']; [discriminate |].
      simpl in Hx |- *. injection Hx as ->. now apply is_word_alnum.
    + apply (boundary_right _ _ Hb1).
      rewrite Hprev. unfold last_or. rewrite Hy. now apply is_word_alnum.
Qed.

Lemma in_upper_alnum x : in_charset upper x = true -> Py.ascii_isalnum x = true.
Proof. unfold upper, in_charset, Py.ascii_isalnum. lia. Qed.

Lemma in_lower_alnum x : in_charset lower x = true -> Py.ascii_isalnum x = true.
Proof. unfold lower, in_charset, Py.ascii_isalnum. lia. Qed.

Lemma in_digit_alnum x : in_charset digit x = true -> Py.ascii_isalnum x = true.
Proof. unfold digit, in_charset, Py.ascii_isalnum. lia. Qed.

Lemma split_space_app (w1 w2 : Py.str) :
  Forall (fun x => x <> 32%N) w1 ->
  split_space (w1 ++ 32%N :: w2) = Some (w1, w2).
Proof.
  induction 1 as [|x w1 Hx _ IH]; simpl; [reflexivity |].
  destruct (N.eqb_spec x 32); [contradiction |]. now rewrite IH.
Qed.

Lemma lowers_no_space (u : Py.str) :
  forallb (in_charset lower) u = true -> Forall (fun x => x <> 32%N) u.
Proof.
  intros H. apply Forall_forall. intros x Hx Heq. subst x.
  rewrite forallb_forall in H. apply list_elem_of_In in Hx.
  specialize (H _ Hx). discriminate.
Qed.

Lemma last_lowers (x : Py.char) (u : Py.str) :
  forallb (in_charset lower) (x :: u) = true ->
  exists y, last (x :: u) = Some y /\ in_charset lower y = true.
Proof.
  revert x. induction u as [|z u IH]; intros x H.
  - exists x. cbn [forallb] in H. apply andb_prop in H.
    split; [reflexivity | apply H].
  - rewrite last_cons_cons. apply IH.
    cbn [forallb] in *. now apply andb_prop in H.
Qed.

End Semantics.
End PatternFacts.

(** * More on the extractor *)

Module ExtractorMore.
Import CustomImplementation Re Patterns PatternFacts.

Section Extractor.
Context {rt : Py.Runtime}.

(** The group of [year_pattern]. *)
Lemma year_group_run c s c1 rest' :
  run (Alt (Seq (Chr (Single 49%N)) (Rep 3 digit))
           (Seq (Chr (Single 50%N))
                (Seq (Chr (Single 48%N)) (Rep 2 digit))))
      c s c1 rest' ->
  exists v x y,
    s = v ++ rest' /\ year_shaped v = true
    /\ head v = Some x /\ Py.ascii_isalnum x = true
    /\ last v = Some y /\ Py.ascii_isalnum y = true.
Proof.
  cbn [run].
  intros [(c2 & r2 & (x & Hx & -> & ->) & (u & Hlen & Hall & -> & ->))
         | (c2 & r2 & (x & Hx & -> & ->) & c3 & r3 & (z & Hz & -> & ->)
            & (u & Hlen & Hall & -> & ->))].
  - destruct u as [|a [|b [|d [|]]]]; try discriminate.
    exists [x; a; b; d], x, d.
    unfold year_shaped, Py.ascii_isalnum, digit, in_charset in *.
    cbn [forallb] in Hall.
    split_and!; try reflexivity; lia.
  - destruct u as [|b [|d [|]]]; try discriminate.
    exists [x; z; b; d], x, d.
    unfold year_shaped, Py.ascii_isalnum, digit, in_charset in *.
    cbn [forallb] in Hall.
    split_and!; try reflexivity; lia.
Qed.

(** The group of [person_pattern]. *)
Lemma person_group_run c s c1 rest' :
  run (Seq (Chr upper)
           (Seq (Plus lower)
                (Seq (Chr (Single 32%N))
                     (Seq (Chr upper) (Plus lower)))))
      c s c1 rest' ->
  exists v x y,
    s = v ++ rest' /\ person_shaped v = true
    /\ head v = Some x /\ Py.ascii_isalnum x = true
    /\ last v = Some y /\ Py.ascii_isalnum y = true.
Proof.
  cbn [run].
  intros (c2 & r2 & (x1 & Hx1 & -> & ->)
          & c3 & r3 & (y1 & u1 & Hu1 & -> & ->)
          & c4 & r4 & (sp & Hsp & -> & ->)
          & c5 & r5 & (x2 & Hx2 & -> & ->)
          & (y2 & u2 & Hu2 & -> & ->)).
  assert (sp = 32%N) as -> by (unfold in_charset in Hsp; lia).
  destruct (last_lowers y2 u2 Hu2) as (y & Hy & Hyl).
  exists ((x1 :: y1 :: u1) ++ 32%N :: x2 :: y2 :: u2), x1, y.
  split; [now rewrite <- app_assoc |].
  split.
  { unfold person_shaped. rewrite split_space_app.
    - unfold capitalized. now rewrite Hx1, Hu1, Hx2, Hu2.
    - constructor; [| now apply lowers_no_space].
      intros ->. discriminate. }
  split; [reflexivity |]. split; [now apply in_upper_alnum |].
  split; [| now apply in_lower_alnum].
  rewrite last_app. change (last (32%N :: x2 :: y2 :: u2)) with (last (y2 :: u2)).
  now rewrite Hy.
Qed.

Lemma findall_year_shape (text v : Py.str) :
  v ∈ findall year_pattern text -> year_shaped v = true /\ delimited text v.
Proof. apply (findall_shape _ year_shaped year_group_run). Qed.

Lemma findall_person_shape (text v : Py.str) :
  v ∈ findall person_pattern text ->
  person_shaped v = true /\ delimited text v.
Proof. apply (findall_shape _ person_shaped person_group_run). Qed.


Lemma types_differ : Py.lit "Person" <> Py.lit "Year".
Proof. discriminate. Qed.

Lemma extract_result (text : Py.str) (self : SimpleRegexExtractor) :
  (extract text self).1
  = Py.Ok ((person_entity <$> persons_of text)
             ++ (year_entity <$> years_of text),
           persons_of text
             ≫= (fun person => mentioned_in person <$> years_of text)).
Proof.
  rewrite ExtractorFacts.extract_run. cbn [fst].
  now rewrite ExtractorFacts.extract_body_spec.
Qed.

Lemma persons_of_found (text p : Py.str) :
  p ∈ persons_of text -> p ∈ findall person_pattern text.
Proof. apply Py.set_iter_In. Qed.

Lemma years_of_found (text y : Py.str) :
  y ∈ years_of text -> y ∈ findall year_pattern text.
Proof. apply Py.set_iter_In. Qed.

Lemma entity_cases (text : Py.str) (e : ExtractedEntity) :
  e ∈ (person_entity <$> persons_of text) ++ (year_entity <$> years_of text) ->
  (exists p, e = person_entity p /\ p ∈ findall person_pattern text)
  \/ (exists y, e = year_entity y /\ y ∈ findall year_pattern text).
Proof.
  intros [H | H]%elem_of_app.
  - apply list_elem_of_fmap in H. destruct H as (v & -> & Hv).
    apply persons_of_found in Hv. left. now exists v.
  - apply list_elem_of_fmap in H. destruct H as (v & -> & Hv).
    apply years_of_found in Hv. right. now exists v.
Qed.

(** X8: the title of every Year entity is a year from 1000 to 2099 written
    with four digits, and stands in the text with no letter, digit or
    underscore on either side. *)
Theorem year_entities_are_whole_years (text : Py.str)
        (self : SimpleRegexExtractor) :
  match (extract text self).1 with
  | Py.Ok (entities, _) =>
      forall e, e ∈ entities -> type e = Py.lit "Year" ->
                year_shaped (title e) = true /\ delimited text (title e)
  | Py.Raise _ => False
  end.
Proof.
  rewrite extract_result. intros e He Hty.
  destruct (entity_cases text e He) as [(p & -> & Hp) | (y & -> & Hy)].
  - now destruct types_differ.
  - now apply findall_year_shape.
Qed.

(** X9: the title of every Person entity is made of two capitalized words
    (a capital letter, then small letters) with one space between, and
    stands in the text with no letter, digit or underscore on either side. *)
Theorem person_entities_are_whole_names (text : Py.str)
        (self : SimpleRegexExtractor) :
  match (extract text self).1 with
  | Py.Ok (entities, _) =>
      forall e, e ∈ entities -> type e = Py.lit "Person" ->
                person_shaped (title e) = true /\ delimited text (title e)
  | Py.Raise _ => False
  end.
Proof.
  rewrite extract_result. intros e He Hty.
  destruct (entity_cases text e He) as [(p & -> & Hp) | (y & -> & Hy)].
  - now apply findall_person_shape.
  - symmetry in Hty. now destruct types_differ.
Qed.

Lemma year_not_person (v : Py.str) :
  year_shaped v = true -> person_shaped v = false.
Proof.
  destruct v as [|a [|b [|c [|d [|]]]]]; try discriminate.
  unfold year_shaped, person_shaped, digit, in_charset. intros H.
  cbn [split_space].
  repeat match goal with
         | |- context [(?x =? 32)%N] => destruct (N.eqb_spec x 32); [lia |]
         end.
  reflexivity.
Qed.

#[local] Instance person_entity_inj : Inj (=) (=) person_entity.
Proof. intros p q [= ->]. reflexivity. Qed.

#[local] Instance year_entity_inj : Inj (=) (=) year_entity.
Proof. intros p q [= ->]. reflexivity. Qed.

#[local] Instance mentioned_in_inj person : Inj (=) (=) (mentioned_in person).
Proof. intros p q [= ->]. reflexivity. Qed.

Lemma person_titles (l : list Py.str) : title <$> (person_entity <$> l) = l.
Proof. induction l as [|p l IH]; [reflexivity |]. rewrite !fmap_cons, IH. reflexivity. Qed.

Lemma year_titles (l : list Py.str) : title <$> (year_entity <$> l) = l.
Proof. induction l as [|y l IH]; [reflexivity |]. rewrite !fmap_cons, IH. reflexivity. Qed.

(** X10: no two entities of a result have the same title: a person or a
    year mentioned several times in the text is returned once. *)
Theorem entity_titles_distinct (text : Py.str) (self : SimpleRegexExtractor) :
  match (extract text self).1 with
  | Py.Ok (entities, _) => NoDup (title <$> entities)
  | Py.Raise _ => False
  end.
Proof.
  rewrite extract_result. rewrite fmap_app, person_titles, year_titles.
  apply NoDup_app.
  split; [apply Py.set_iter_NoDup |]. split; [| apply Py.set_iter_NoDup].
  intros v Hp Hy. apply persons_of_found in Hp. apply years_of_found in Hy.
  apply findall_person_shape in Hp. apply findall_year_shape in Hy.
  destruct Hp as [Hp _], Hy as [Hy _].
  apply year_not_person in Hy. congruence.
Qed.

Lemma length_pairs {A B C} (f : A -> B -> C) (l : list A) (k : list B) :
  length (l ≫= (fun x => f x <$> k)) = (length l * length k)%nat.
Proof.
  induction l as [|x l IH]; [reflexivity |].
  rewrite bind_cons, length_app, length_fmap, IH. simpl. lia.
Qed.

Lemma filter_fmap_all {A B} (P : B -> Prop) `{forall b, Decision (P b)}
      (f : A -> B) (l : list A) :
  (forall x, P (f x)) -> filter P (f <$> l) = f <$> l.
Proof.
  intros Hall. induction l as [|x l IH]; [reflexivity |].
  rewrite fmap_cons, filter_cons, decide_True by apply Hall. now f_equal.
Qed.

Lemma pairs_of_entities (persons years : list Py.str) :
  (person_entity <$> persons)
    ≫= (fun p => (fun y => mentioned_in (title p) (title y))
                    <$> (year_entity <$> years))
  = persons ≫= (fun person => mentioned_in person <$> years).
Proof.
  induction persons as [|person persons IH]; [reflexivity |].
  rewrite fmap_cons, !bind_cons, IH. f_equal.
  rewrite <- list_fmap_compose. reflexivity.
Qed.

(** X11: the relationships of a result are, in this order, one for each
    Person entity and each Year entity of the result taken together, from
    the title of the one to the title of the other; so there are as many as
    the two counts multiplied, and none occurs twice. *)
Theorem relationships_are_all_pairs (text : Py.str)
        (self : SimpleRegexExtractor) :
  match (extract text self).1 with
  | Py.Ok (entities, relationships) =>
      let persons := filter (fun e => type e = Py.lit "Person") entities in
      let years := filter (fun e => type e = Py.lit "Year") entities in
      relationships
      = persons ≫= (fun p => (fun y => mentioned_in (title p) (title y))
                                <$> years)
      /\ length relationships = (length persons * length years)%nat
      /\ NoDup relationships
  | Py.Raise _ => False
  end.
Proof.
  rewrite extract_result. cbv zeta.
  rewrite !filter_app.
  rewrite (filter_fmap_all (fun e => type e = Py.lit "Person") person_entity)
    by reflexivity.
  rewrite (ExtractorFacts.filter_fmap_none
             (fun e => type e = Py.lit "Person") year_entity)
    by (intros y H; symmetry in H; now destruct types_differ).
  rewrite (ExtractorFacts.filter_fmap_none
             (fun e => type e = Py.lit "Year") person_entity)
    by (intros p H; now destruct types_differ).
  rewrite (filter_fmap_all (fun e => type e = Py.lit "Year") year_entity)
    by reflexivity.
  rewrite app_nil_r, app_nil_l.
  split; [symmetry; apply pairs_of_entities |]. split.
  - rewrite !length_fmap. apply length_pairs.
  - apply NoDup_bind.
    + intros p q r _ _ Hp Hq.
      apply list_elem_of_fmap in Hp, Hq.
      destruct Hp as (y & -> & _), Hq as (z & [= -> _] & _). reflexivity.
    + intros p _. apply NoDup_fmap_2; [apply _ | apply Py.set_iter_NoDup].
    + apply Py.set_iter_NoDup.
Qed.

Lemma no_elements {A} (l : list A) : (forall x, x ∉ l) -> l = [].
Proof.
  destruct l as [|x l]; [reflexivity |].
  intros H. destruct (H x). constructor.
Qed.

Lemma bind_no_years {A B} (l : list A) (f : A -> Py.str -> B) :
  l ≫= (fun x => f x <$> (@nil Py.str)) = @nil B.
Proof. induction l as [|x l IH]; [reflexivity |]. now rewrite bind_cons, IH. Qed.

Lemma delimited_head (text v : Py.str) (x : Py.char) :
  delimited text v -> head v = Some x -> x ∈ text.
Proof.
  intros (a & b & -> & _) Hx. destruct v as [|z v]; [discriminate |].
  injection Hx as ->. rewrite !elem_of_app, elem_of_cons. auto.
Qed.

(** X12: in a text without a digit there is no Year entity and no
    relationship; in a text without a capital letter there is no Person
    entity and no relationship. *)
Theorem extract_needs_digits_and_capitals (text : Py.str)
        (self : SimpleRegexExtractor) :
  match (extract text self).1 with
  | Py.Ok (entities, relationships) =>
      (Forall (fun x => in_charset digit x = false) text ->
       relationships = []
       /\ Forall (fun e => type e = Py.lit "Person") entities)
      /\ (Forall (fun x => in_charset upper x = false) text ->
          relationships = []
          /\ Forall (fun e => type e = Py.lit "Year") entities)
  | Py.Raise _ => False
  end.
Proof.
  rewrite extract_result. split; intros Hnone; rewrite Forall_forall in Hnone.
  - assert (years_of text = []) as ->.
    { apply no_elements. intros y Hy. apply years_of_found in Hy.
      apply findall_year_shape in Hy. destruct Hy as [Hs Hd].
      destruct y as [|a [|b [|c [|d [|]]]]]; try discriminate.
      pose proof (Hnone a (delimited_head _ _ a Hd eq_refl)) as Ha.
      unfold year_shaped, digit, in_charset in *. lia. }
    split; [apply bind_no_years |].
    rewrite fmap_nil, app_nil_r. apply Forall_fmap, Forall_forall.
    reflexivity.
  - assert (persons_of text = []) as ->.
    { apply no_elements. intros p Hp. apply persons_of_found in Hp.
      apply findall_person_shape in Hp. destruct Hp as [Hs Hd].
      unfold person_shaped in Hs.
      destruct (split_space p) as [[w1 w2]|] eqn:Hsplit; [| discriminate].
      destruct p as [|a p]; [discriminate |].
      pose proof (Hnone a (delimited_head _ _ a Hd eq_refl)) as Ha.
      cbn [split_space] in Hsplit.
      destruct (N.eqb_spec a 32) as [-> | Hne].
      - injection Hsplit as <- <-. discriminate.
      - destruct (split_space p) as [[u1 u2]|]; [| discriminate].
        injection Hsplit as <- <-. unfold capitalized in Hs.
        destruct u1; [discriminate |].
        apply andb_prop in Hs. destruct Hs as [Hs _].
        apply andb_prop in Hs. destruct Hs as [Hs _]. congruence. }
    split; [reflexivity |].
    rewrite fmap_nil, app_nil_l. apply Forall_fmap, Forall_forall.
    reflexivity.
Qed.

End Extractor.

(** ** Two interpreter processes *)

Lemma m_plus_ext cs (k1 k2 : cont) :
  (forall c rest, k1 c rest = k2 c rest) ->
  forall rest c, m_plus cs c rest k1 = m_plus cs c rest k2.
Proof.
  intros Hk. induction rest as [|x rest IH]; intros c; simpl; [reflexivity |].
  now rewrite IH, Hk.
Qed.

Lemma m_rep_ext cs (k1 k2 : cont) :
  (forall c rest, k1 c rest = k2 c rest) ->
  forall n rest c, m_rep n cs c rest k1 = m_rep n cs c rest k2.
Proof.
  intros Hk. induction n as [|n IH]; intros rest c; simpl; [apply Hk |].
  destruct rest as [|x rest]; [reflexivity |]. now rewrite IH.
Qed.

Section TwoRuntimes.
Variables rt1 rt2 : Py.Runtime.
Hypothesis same_database :
  forall x, Py.isalnum (Runtime := rt1) x = Py.isalnum (Runtime := rt2) x.

Lemma at_boundary_ext c rest :
  at_boundary (rt := rt1) c rest = at_boundary (rt := rt2) c rest.
Proof.
  unfold at_boundary, is_word.
  destruct (prev c), (head rest); now rewrite ?same_database.
Qed.

Lemma m_ext (r : regex) :
  forall c rest (k1 k2 : cont),
    (forall c rest, k1 c rest = k2 c rest) ->
    m (rt := rt1) r c rest k1 = m (rt := rt2) r c rest k2.
Proof.
  induction r as [cs | r1 IH1 r2 IH2 | r1 IH1 r2 IH2 | cs | n cs | | r IH];
    intros c rest k1 k2 Hk; cbn [m].
  - destruct rest as [|x rest]; [reflexivity |]. now rewrite Hk.
  - apply IH1. intros c' rest'. now apply IH2.
  - now rewrite (IH1 c rest k1 k2 Hk), (IH2 c rest k1 k2 Hk).
  - now apply m_plus_ext.
  - now apply m_rep_ext.
  - now rewrite at_boundary_ext, Hk.
  - apply IH. intros c' rest'. apply Hk.
Qed.

Lemma scan_ext (r : regex) :
  forall s before skip,
    scan (rt := rt1) r before skip s = scan (rt := rt2) r before skip s.
Proof.
  assert (Hhere : forall before s,
             match_here (rt := rt1) r before s
             = match_here (rt := rt2) r before s).
  { intros before s. unfold match_here.
    now rewrite (m_ext r _ _ _ (fun c rest => Some (c, rest))). }
  induction s as [|x s IH]; intros before skip; simpl.
  - now rewrite Hhere.
  - destruct skip; [| apply IH]. rewrite Hhere.
    destruct (match_here r before (x :: s)) as [[g n]|]; now rewrite IH.
Qed.

Lemma set_iter_Permutation (l : list Py.str) :
  Py.set_iter (Runtime := rt1) l ≡ₚ Py.set_iter (Runtime := rt2) l.
Proof.
  apply NoDup_Permutation; [apply Py.set_iter_NoDup .. |].
  intros x. now rewrite !Py.set_iter_In.
Qed.

Lemma bind_Permutation_pointwise {A B} (f g : A -> list B) (l k : list A) :
  (forall x, f x ≡ₚ g x) -> l ≡ₚ k -> l ≫= f ≡ₚ k ≫= g.
Proof.
  intros Hfg Hlk. rewrite <- Hlk. clear k Hlk.
  induction l as [|x l IH]; [reflexivity |].
  now rewrite !bind_cons, IH, Hfg.
Qed.

(** X13: the hash seed of the interpreter only decides the order of a
    result: two processes (with the same Unicode database) return the same
    entities and the same relationships, each up to a permutation. *)
Theorem extract_same_up_to_order (text : Py.str)
        (self : SimpleRegexExtractor) :
  match (extract (rt := rt1) text self).1,
        (extract (rt := rt2) text self).1 with
  | Py.Ok (entities1, relationships1), Py.Ok (entities2, relationships2) =>
      entities1 ≡ₚ entities2 /\ relationships1 ≡ₚ relationships2
  | _, _ => False
  end.
Proof.
  rewrite !extract_result. unfold persons_of, years_of, findall.
  rewrite !(scan_ext _ text None 0).
  set (ps := scan (rt := rt2) person_pattern None 0 text).
  set (ys := scan (rt := rt2) year_pattern None 0 text).
  pose proof (set_iter_Permutation ps) as Hp.
  pose proof (set_iter_Permutation ys) as Hy.
  split.
  - now rewrite Hp, Hy.
  - apply bind_Permutation_pointwise; [| exact Hp].
    intros p. now rewrite Hy.
Qed.

(** C4: within one interpreter process [extract] is a function of the
    text: a call returns the same result on every instance, whatever
    attributes it carries and whatever calls it served before, and leaves the
    instance as it found it.  In another process, with another iteration
    order of sets and the same Unicode database, the call returns the same
    entities and the same relationships, possibly in another order. *)
Theorem extract_pure_up_to_order (history : list Py.str) (text : Py.str)
        (self other : SimpleRegexExtractor) :
  (extract (rt := rt1) text (after_calls (rt := rt1) history self)).1
  = (extract (rt := rt1) text other).1
  /\ (extract (rt := rt1) text self).2 = self
  /\ match (extract (rt := rt1) text self).1,
           (extract (rt := rt2) text other).1 with
     | Py.Ok (entities1, relationships1), Py.Ok (entities2, relationships2) =>
         entities1 ≡ₚ entities2 /\ relationships1 ≡ₚ relationships2
     | _, _ => False
     end.
Proof.
  split; [now rewrite !ExtractorFacts.extract_run |].
  split; [now rewrite ExtractorFacts.extract_run |].
  rewrite !extract_result. unfold persons_of, years_of, findall.
  rewrite !(scan_ext _ text None 0).
  pose proof (set_iter_Permutation
                (scan (rt := rt2) person_pattern None 0 text)) as Hp.
  pose proof (set_iter_Permutation
                (scan (rt := rt2) year_pattern None 0 text)) as Hy.
  split.
  - apply Permutation_app; now apply fmap_Permutation.
  - apply bind_Permutation_pointwise; [| exact Hp].
    intros p. now apply fmap_Permutation.
Qed.

End TwoRuntimes.

Lemma extract_same_up_to_order_witness :
  (forall x, Py.isalnum (Runtime := Py.ascii_runtime) x
             = Py.isalnum (Runtime := OtherRuntime.reversed) x)
  /\ match (extract (rt := Py.ascii_runtime)
                    (Py.lit "Albert Einstein met Marie Curie in 1911 and 1927.")
                    SimpleRegexExtractor_init).1,
           (extract (rt := OtherRuntime.reversed)
                    (Py.lit "Albert Einstein met Marie Curie in 1911 and 1927.")
                    SimpleRegexExtractor_init).1 with
     | Py.Ok (entities1, relationships1), Py.Ok (entities2, relationships2) =>
         entities1 ≡ₚ entities2 /\ relationships1 ≡ₚ relationships2
     | _, _ => False
     end.
Proof.
  assert (H : forall x, Py.isalnum (Runtime := Py.ascii_runtime) x
                        = Py.isalnum (Runtime := OtherRuntime.reversed) x)
    by reflexivity.
  exact (conj H (extract_same_up_to_order
                   Py.ascii_runtime OtherRuntime.reversed H
                   (Py.lit "Albert Einstein met Marie Curie in 1911 and 1927.")
                   SimpleRegexExtractor_init)).
Defined.

Lemma extract_pure_up_to_order_witness :
  let text := Py.lit "Albert Einstein met Marie Curie in 1911 and 1927." in
  let history := [Py.lit "Isaac Newton published Principia in 1687."; text] in
  let self := SimpleRegexExtractor_init in
  let other :=
    mkSimpleRegexExtractor {[ Py.lit "cache" := Py.VInt 1 ]} in
  (forall x, Py.isalnum (Runtime := Py.ascii_runtime) x
             = Py.isalnum (Runtime := OtherRuntime.reversed) x)
  /\ (extract (rt := Py.ascii_runtime) text
              (after_calls (rt := Py.ascii_runtime) history self)).1
     = (extract (rt := Py.ascii_runtime) text other).1
  /\ (extract (rt := Py.ascii_runtime) text self).2 = self
  /\ match (extract (rt := Py.ascii_runtime) text self).1,
           (extract (rt := OtherRuntime.reversed) text other).1 with
     | Py.Ok (entities1, relationships1), Py.Ok (entities2, relationships2) =>
         entities1 ≡ₚ entities2 /\ relationships1 ≡ₚ relationships2
     | _, _ => False
     end.
Proof.
  intros text history self other.
  assert (H : forall x, Py.isalnum (Runtime := Py.ascii_runtime) x
                        = Py.isalnum (Runtime := OtherRuntime.reversed) x)
    by reflexivity.
  exact (conj H (extract_pure_up_to_order
                   Py.ascii_runtime OtherRuntime.reversed H
                   history text self other)).
Defined.

(** C4 as stated fails: two calls with the same text, made in two
    interpreter processes that iterate sets in different orders, return the
    entities in different orders, hence results that are not equal. *)
Lemma extract_pure_counterexample :
  let text := Py.lit "Albert Einstein met Marie Curie in 1911 and 1927." in
  (forall x, Py.isalnum (Runtime := Py.ascii_runtime) x
             = Py.isalnum (Runtime := OtherRuntime.reversed) x)
  /\ (extract (rt := Py.ascii_runtime) text SimpleRegexExtractor_init).1
     <> (extract (rt := OtherRuntime.reversed) text
                 SimpleRegexExtractor_init).1.
Proof.
  intros text. split; [reflexivity |]. vm_compute. discriminate.
Qed.

(** Two such processes do return their entities in different orders. *)
Example orders_differ :
  (extract (rt := Py.ascii_runtime)
           (Py.lit "Albert Einstein met Marie Curie in 1911 and 1927.")
           SimpleRegexExtractor_init).1
  <> (extract (rt := OtherRuntime.reversed)
              (Py.lit "Albert Einstein met Marie Curie in 1911 and 1927.")
              SimpleRegexExtractor_init).1.
Proof. vm_compute. discriminate. Qed.

End ExtractorMore.

(** * Every year is found *)

Module YearsFound.
Import CustomImplementation Re Patterns PatternFacts ExtractorMore.

Section Extractor.
Context {rt : Py.Runtime}.

Lemma year_shaped_cases (y : Py.str) :
  year_shaped y = true ->
  exists d1 d2 d3 d4,
    y = [d1; d2; d3; d4]
    /\ in_charset digit d3 = true /\ in_charset digit d4 = true
    /\ ((d1 = 49%N /\ in_charset digit d2 = true)
        \/ (d1 = 50%N /\ d2 = 48%N)).
Proof.
  destruct y as [|d1 [|d2 [|d3 [|d4 [|]]]]]; try discriminate.
  unfold year_shaped. intros H. exists d1, d2, d3, d4.
  split; [reflexivity |].
  apply andb_prop in H. destruct H as [H H4].
  apply andb_prop in H. destruct H as [H H3].
  split; [assumption |]. split; [assumption |].
  apply orb_prop in H.
  destruct H as [[H1 H2]%andb_prop | [H1 H2]%andb_prop]; [left | right];
    split; try assumption; lia.
Qed.

(** At a delimited year the pattern matches, and matches that year. *)
Lemma match_here_year before (y b : Py.str) :
  year_shaped y = true ->
  is_word before = false -> is_word (head b) = false ->
  match_here year_pattern before (y ++ b) = Some (y, 4%nat).
Proof.
  intros Hy Hbefore Hafter.
  destruct (year_shaped_cases y Hy) as (d1 & d2 & d3 & d4 & -> & H3 & H4 & H12).
  assert (Hw4 : is_word (Some d4) = true)
    by now apply is_word_alnum, in_digit_alnum.
  assert (Hend : forall g, at_boundary (mkCtx (Some d4) g) b = true).
  { intros g. unfold at_boundary. cbn [prev]. now rewrite Hw4, Hafter. }
  unfold match_here, year_pattern.
  destruct H12 as [[-> H2] | [-> ->]].
  - assert (Hstart : forall g rest,
               at_boundary (mkCtx before g) (49%N :: rest) = true).
    { intros g rest. unfold at_boundary. cbn [prev head].
      rewrite Hbefore. now rewrite is_word_alnum. }
    cbn [m app]. rewrite Hstart.
    cbn [m m_rep in_charset N.eqb Pos.eqb step group1 prev].
    rewrite H2, H3, H4. cbn [m]. rewrite Hend.
    cbn [group1 length]. do 2 f_equal; [| lia].
    rewrite Nat.sub_succ_l by lia. rewrite Nat.sub_succ_l by lia.
    rewrite Nat.sub_succ_l by lia. rewrite Nat.sub_succ_l by lia.
    rewrite Nat.sub_diag. reflexivity.
  - assert (Hstart : forall g rest,
               at_boundary (mkCtx before g) (50%N :: rest) = true).
    { intros g rest. unfold at_boundary. cbn [prev head].
      rewrite Hbefore. now rewrite is_word_alnum. }
    cbn [m app]. rewrite Hstart.
    cbn [m m_rep in_charset N.eqb Pos.eqb step group1 prev].
    rewrite H3, H4. cbn [m]. rewrite Hend.
    cbn [group1 length]. do 2 f_equal; [| lia].
    rewrite Nat.sub_succ_l by lia. rewrite Nat.sub_succ_l by lia.
    rewrite Nat.sub_succ_l by lia. rewrite Nat.sub_succ_l by lia.
    rewrite Nat.sub_diag. reflexivity.
Qed.

Lemma year_digits_word (y : Py.str) :
  year_shaped y = true ->
  length y = 4%nat /\ forall z, z ∈ y -> is_word (Some z) = true.
Proof.
  intros Hy.
  destruct (year_shaped_cases y Hy) as (d1 & d2 & d3 & d4 & -> & H3 & H4 & H12).
  split; [reflexivity |].
  intros z Hz. apply is_word_alnum.
  rewrite !elem_of_cons in Hz. rewrite elem_of_nil in Hz.
  unfold Py.ascii_isalnum, digit, in_charset in *.
  destruct Hz as [-> | [-> | [-> | [-> | []]]]]; lia.
Qed.

(** A match of the year pattern is four word characters long. *)
Lemma match_here_year_inv before (s v : Py.str) (n : nat) :
  match_here year_pattern before s = Some (v, n) ->
  n = 4%nat /\ v = take 4 s /\ (4 <= length s)%nat
  /\ forall z, z ∈ v -> is_word (Some z) = true.
Proof.
  intros Hm. apply match_here_bounded in Hm.
  destruct Hm as (c1 & rest' & Hs & Hrun & _ & _ & ->).
  apply year_group_run in Hrun.
  destruct Hrun as (v' & _ & _ & Hs' & Hshape & _).
  assert (v' = v) as -> by (apply (app_inv_tail rest'); congruence).
  destruct (year_digits_word v Hshape) as [Hlen Hword].
  split; [assumption |]. split; [| split; [| assumption]].
  - subst s. rewrite <- Hlen. now rewrite take_app_length.
  - subst s. rewrite length_app. lia.
Qed.

Lemma scan_match (r : regex) before (s g : Py.str) (n : nat) :
  s <> [] -> match_here r before s = Some (g, n) -> g ∈ scan r before 0 s.
Proof.
  destruct s as [|x s]; [congruence |]. intros _ H.
  cbn [scan]. rewrite H. constructor.
Qed.

(** The scan does not pass over a delimited year: a match before it ends
    before it. *)
Lemma scan_finds_year (y b : Py.str) :
  year_shaped y = true -> is_word (head b) = false ->
  forall a before skip,
    (skip <= length a)%nat ->
    is_word (last_or before a) = false ->
    y ∈ scan year_pattern before skip (a ++ y ++ b).
Proof.
  intros Hy Hb. induction a as [|x a IH]; intros before skip Hskip Hbefore.
  - assert (skip = 0%nat) as -> by (simpl in Hskip; lia).
    change ([] ++ y ++ b) with (y ++ b).
    apply (scan_match _ _ _ _ 4).
    + destruct (year_shaped_cases y Hy) as (? & ? & ? & ? & -> & _).
      discriminate.
    + now apply match_here_year.
  - rewrite last_or_cons in Hbefore.
    change ((x :: a) ++ y ++ b) with (x :: (a ++ y ++ b)).
    destruct skip as [|skip].
    + cbn [scan].
      destruct (match_here _ _ _) as [[g len]|] eqn:Hm.
      * apply elem_of_cons. right.
        apply match_here_year_inv in Hm.
        destruct Hm as (-> & Hg & _ & Hword).
        apply IH; [| assumption].
        destruct (Nat.le_gt_cases 3 (length a)) as [Hle | Hlt]; [simpl; lia |].
        exfalso.
        assert (Hin : forall z, z ∈ x :: a -> z ∈ g).
        { intros z Hz. subst g.
          change (x :: a ++ y ++ b) with ((x :: a) ++ y ++ b).
          rewrite take_app_ge by (simpl; lia).
          apply elem_of_app. now left. }
        assert (Hlast : exists z, last_or (Some x) a = Some z /\ z ∈ x :: a).
        { unfold last_or. destruct (last a) as [z|] eqn:Hl.
          - exists z. split; [reflexivity |].
            apply elem_of_cons. right.
            apply last_Some in Hl. destruct Hl as [l' ->].
            apply elem_of_app. right. constructor.
          - exists x. split; [reflexivity | constructor]. }
        destruct Hlast as (z & Hz & Hzin). rewrite Hz in Hbefore.
        rewrite (Hword z (Hin z Hzin)) in Hbefore. discriminate.
      * apply IH; [lia | assumption].
    + cbn [scan]. apply IH; [simpl in Hskip; lia | assumption].
Qed.

(** X14: every year from 1000 to 2099 that stands in the text with no letter,
    digit or underscore on either side is the title of a Year entity of the
    result. *)
Theorem delimited_years_are_extracted (text y : Py.str)
        (self : SimpleRegexExtractor) :
  year_shaped y = true -> delimited text y ->
  match (extract text self).1 with
  | Py.Ok (entities, _) => year_entity y ∈ entities
  | Py.Raise _ => False
  end.
Proof.
  intros Hy (a & b & -> & Ha & Hb).
  rewrite extract_result. apply elem_of_app. right.
  apply list_elem_of_fmap. exists y. split; [reflexivity |].
  apply Py.set_iter_In. unfold findall.
  apply scan_finds_year; [assumption | assumption | lia |].
  now rewrite last_or_None.
Qed.

End Extractor.

Lemma delimited_years_are_extracted_witness :
  let text := Py.lit "Marie Curie won Nobel Prize in 1903." in
  let y := Py.lit "1903" in
  year_shaped y = true
  /\ delimited (rt := Py.ascii_runtime) text y
  /\ match (extract (rt := Py.ascii_runtime) text SimpleRegexExtractor_init).1
     with
     | Py.Ok (entities, _) => year_entity y ∈ entities
     | Py.Raise _ => False
     end.
Proof.
  intros text y.
  assert (Hd : delimited (rt := Py.ascii_runtime) text y).
  { exists (Py.lit "Marie Curie won Nobel Prize in "), (Py.lit ".").
    split_and!; reflexivity. }
  exact (conj eq_refl
           (conj Hd
              (delimited_years_are_extracted
                 (rt := Py.ascii_runtime) text y SimpleRegexExtractor_init
                 eq_refl Hd))).
Defined.

End YearsFound.

(** * The integration script *)

Module TestIntegrationFacts.
Import TestIntegration.

Section Script.
Context {Outside : Type}.
Variable probe : World Outside -> outcome Z * World Outside.
Variable gibram :
  option (Py.str -> World Outside -> outcome unit * World Outside).
Variables test_basic_workflow test_context_manager test_query_modes
  : test Outside.

#[local] Abbreviation tests :=
  (tests gibram test_basic_workflow test_context_manager test_query_modes).
#[local] Abbreviation main :=
  (main probe gibram test_basic_workflow test_context_manager
        test_query_modes).

Lemma main_loop_cons name (f : test Outside) ts results w :
  main_loop ((name, f) :: ts) results w
  = main_loop ts (results ++ [(name, verdict (f w).1)]) (f w).2.
Proof. cbn [main_loop]. now destruct (f w) as [[passed | e] w']. Qed.

(** X15: the loop of [main] calls each of the four tests, in the order of
    the list, each in the world the test before left, whether the tests
    before returned [False] or raised; it records for each the value it
    returned, or [False] if it raised. *)
Theorem main_runs_every_test (w : World Outside) :
  let r1 := test_basic_workflow w in
  let r2 := test_context_manager r1.2 in
  let r3 := test_error_handling gibram r2.2 in
  let r4 := test_query_modes r3.2 in
  main_loop tests [] w
  = ([(Py.lit "Basic Workflow", verdict r1.1);
      (Py.lit "Context Manager", verdict r2.1);
      (Py.lit "Error Handling", verdict r3.1);
      (Py.lit "Query Modes", verdict r4.1)], r4.2).
Proof.
  cbv zeta. unfold TestIntegration.tests.
  rewrite !main_loop_cons. reflexivity.
Qed.

Lemma passed_count_app results r :
  passed_count (results ++ [r])
  = (passed_count results + if r.2 then 1 else 0)%nat.
Proof.
  unfold passed_count. rewrite filter_app, length_app. f_equal.
  destruct r as [name [|]]; reflexivity.
Qed.

Lemma passed_count_le results : (passed_count results <= length results)%nat.
Proof. apply length_filter. Qed.

Lemma main_loop_all_passed (ts : list (Py.str * test Outside)) :
  forall results w,
    passed_count (main_loop ts results w).1
    = length (main_loop ts results w).1
    <-> passed_count results = length results /\ all_pass ts w.
Proof.
  induction ts as [|[name f] ts IH]; intros results w;
    cbn [main_loop TestIntegration.all_pass].
  - cbn [fst]. tauto.
  - destruct (f w) as [[passed | e] w'] eqn:Hf; rewrite IH;
      rewrite passed_count_app, length_app; cbn [snd length];
      pose proof (passed_count_le results) as Hle.
    + destruct passed.
      * split.
        -- intros [Hn Hall]. split; [lia |]. now exists w'.
        -- intros [Hn (w'' & [= <-] & Hall)]. split; [lia | assumption].
      * split.
        -- intros [Hn _]. lia.
        -- intros [_ (w'' & [=] & _)].
    + split.
      * intros [Hn _]. lia.
      * intros [_ (w'' & [=] & _)].
Qed.

Lemma check_environment_true (w w1 : World Outside) :
  check_environment probe w = (true, w1)
  <-> exists key,
        getenv OPENAI_API_KEY w = Some key /\ key <> []
        /\ probe w = (Returns 0, w1).
Proof.
  unfold TestIntegration.check_environment.
  destruct (getenv _ w) as [key|].
  - destruct key as [|x key]; cbn [truthy negb].
    + split; [discriminate |]. intros (k & [= <-] & Hk & _). now destruct Hk.
    + destruct (probe w) as [[result | e] w'].
      * destruct (Z.eqb_spec result 0) as [-> | Hne].
        -- split.
           ++ intros [= <-]. now exists (x :: key).
           ++ now intros (k & _ & _ & [= <-]).
        -- split; [discriminate |]. intros (k & _ & _ & [= ? ?]). congruence.
      * split; [discriminate |]. intros (k & _ & _ & [=]).
  - split; [discriminate |]. intros (k & [=] & _).
Qed.


(** X18: when the constructor leaves the environment alone, so does the
    error-handling test, whatever it returns: an API key that was set and
    not empty is back in place afterwards. *)
Theorem test_error_handling_restores_key (w : World Outside) :
  keeps_environ gibram ->
  getenv OPENAI_API_KEY w <> Some [] ->
  environ (test_error_handling gibram w).2 = environ w.
Proof.
  intros Hkeeps Hkey. unfold TestIntegration.test_error_handling.
  destruct gibram as [ctor|] eqn:Hg; [| reflexivity].
  pose proof (Hkeeps ctor [] w eq_refl) as H1.
  destruct (ctor [] w) as [[[] | [|]] w1]; cbn [snd] in H1; try exact H1.
  pose proof (Hkeeps ctor (Py.lit "test-error")
                     (environ_pop OPENAI_API_KEY w1) eq_refl) as H2.
  destruct (ctor (Py.lit "test-error") _) as [constructed w2].
  cbn [snd] in H2. cbn [environ_pop set_environ environ] in H2.
  unfold getenv in *. rewrite H1 in *.
  assert (Henv :
    environ (match environ w !! OPENAI_API_KEY with
             | Some key =>
                 if truthy key
                 then environ_set OPENAI_API_KEY key w2 else w2
             | None => w2
             end) = environ w).
  { destruct (environ w !! OPENAI_API_KEY) as [[|x key]|] eqn:Hold.
    - now destruct Hkey.
    - cbn [truthy environ_set set_environ environ]. rewrite H2.
      rewrite insert_delete_eq. now apply insert_id.
    - rewrite H2. now apply delete_id. }
  destruct constructed as [[] | [|]]; exact Henv.
Qed.


End Script.

Lemma offline_keeps_environ : keeps_environ (Some offline_constructor).
Proof.
  intros ctor session_id w [= <-]. unfold offline_constructor.
  destruct (negb (truthy session_id)); [reflexivity |].
  now destruct (getenv OPENAI_API_KEY w).
Qed.

Lemma test_error_handling_restores_key_witness :
  let w := offline_world (Some (Py.lit "sk-test")) in
  keeps_environ (Some offline_constructor)
  /\ getenv OPENAI_API_KEY w <> Some []
  /\ environ (test_error_handling (Some offline_constructor) w).2 = environ w.
Proof.
  intros w.
  assert (Hkey : getenv OPENAI_API_KEY w <> Some [])
    by (vm_compute; discriminate).
  exact (conj offline_keeps_environ
           (conj Hkey
              (test_error_handling_restores_key
                 (Some offline_constructor) w offline_keeps_environ Hkey))).
Defined.


End TestIntegrationFacts.
